(** * CalendarAid Plus: the store (schema, row-level security, triggers)
      and the two components that read and write registrations and events.

    The repository is a thin client over a PostgreSQL store reached through
    PostgREST.  The store is described by the migration scripts (tables,
    constraints, policies, trigger functions); the client by the React
    components [EventDetails] and [Calendar].  This development embeds

    - the five tables as lists of records, with SQL [NULL] as [None] and
      comparisons in three-valued logic;
    - every [CREATE POLICY] as a boolean predicate over the caller identity
      ([auth.uid()]), the database and the row; the policies of one command
      on one table are permissive, so they are combined with "or", and a
      command with no policy admits no row;
    - [INSERT], [UPDATE] and [DELETE] as functions from a database to either
      a new database or an SQLSTATE, a statement being atomic;
    - the trigger functions [update_updated_at_column] and [handle_new_user];
    - the component state of [EventDetails] and [Calendar] as records and
      their handlers as functions over the store.

    Values produced by the environment are explicit arguments: [now] is the
    value of [now()] for the statement, [gen] the value that
    [gen_random_uuid()] returns. *)

From Stdlib Require Import ZArith List Bool String Lia Sorted Permutation.
From Stdlib Require QArith.
Import ListNotations.
Local Open Scope string_scope.
Local Open Scope Z_scope.
Local Open Scope list_scope.

(** ** Scalars *)

Definition uuid := string.
Definition text := string.
(** [TIMESTAMP WITH TIME ZONE]: microseconds since the epoch. *)
Definition timestamptz := Z.

Module Sql.
(** [=] on nullable operands: unknown as soon as one side is [NULL]. *)
Definition eq_text (a b : option text) : option bool :=
  match a, b with
  | Some x, Some y => Some (String.eqb x y)
  | _, _ => None
  end.

Definition eq_bool (a b : option bool) : option bool :=
  match a, b with
  | Some x, Some y => Some (Bool.eqb x y)
  | _, _ => None
  end.

(** A [WHERE], [USING] or [WITH CHECK] expression admits a row only when
    it evaluates to true; false and unknown both reject. *)
Definition holds (v : option bool) : bool :=
  match v with
  | Some true => true
  | _ => false
  end.

(** A [CHECK] constraint rejects a row only when it evaluates to false. *)
Definition check (v : option bool) : bool :=
  match v with
  | Some false => false
  | _ => true
  end.

Definition coalesce {A : Type} (a b : option A) : option A :=
  match a with
  | Some _ => a
  | None => b
  end.

(** [x IN (v1, ..., vn)] for a nullable [x] and non-null literals. *)
Definition in_list (x : option text) (vs : list text) : option bool :=
  match x with
  | None => None
  | Some s => Some (existsb (String.eqb s) vs)
  end.
End Sql.

Module Jsonb.
(** A value stored under a key: JSON null, a JSON string, or any other
    value (number, boolean, array, object) carried by the text that
    PostgreSQL renders it to. *)
Inductive value :=
| JNull
| JString (s : text)
| JOther (rendered : text).

Inductive t :=
| JObject (fields : list (text * value))
| JScalar (v : value).

Fixpoint field (fields : list (text * value)) (key : text) : option value :=
  match fields with
  | [] => None
  | (k, v) :: rest => if String.eqb k key then Some v else field rest key
  end.

(** The [->>] operator: the field as text; [NULL] when the operand is
    [NULL] or not an object, when the key is absent, or when the field is
    JSON null. *)
Definition get_text (j : option t) (key : text) : option text :=
  match j with
  | Some (JObject fields) =>
      match field fields key with
      | Some (JString s) => Some s
      | Some (JOther rendered) => Some rendered
      | Some JNull => None
      | None => None
      end
  | _ => None
  end.
End Jsonb.

(** ** Rows *)

(** The columns of [auth.users] that the migration reads. *)
Module User.
Record t := mk {
  id : uuid;
  email : option text;
  raw_user_meta_data : option Jsonb.t
}.
End User.

Module Event.
Record t := mk {
  id : uuid;
  title : text;
  description : option text;
  start_time : timestamptz;
  end_time : timestamptz;
  location : option text;
  max_attendees : option Z;
  created_by : option uuid;
  created_at : timestamptz;
  updated_at : timestamptz;
  is_public : option bool;
  event_type : option text;
  metadata : option Jsonb.t
}.

Definition with_updated_at (v : timestamptz) (e : t) : t :=
  mk (id e) (title e) (description e) (start_time e) (end_time e)
     (location e) (max_attendees e) (created_by e) (created_at e) v
     (is_public e) (event_type e) (metadata e).
End Event.

Module Registration.
Record t := mk {
  id : uuid;
  event_id : uuid;
  user_id : uuid;
  registered_at : timestamptz;
  status : option text
}.
End Registration.

Module Profile.
Record t := mk {
  id : uuid;
  user_id : uuid;
  display_name : option text;
  email : option text;
  avatar_url : option text;
  notification_preferences : option Jsonb.t;
  created_at : timestamptz;
  updated_at : timestamptz
}.

Definition with_updated_at (v : timestamptz) (p : t) : t :=
  mk (id p) (user_id p) (display_name p) (email p) (avatar_url p)
     (notification_preferences p) (created_at p) v.

(** [DEFAULT '{"email": true, "push": false, "reminder_times": [24, 1]}'] *)
Definition default_notification_preferences : Jsonb.t :=
  Jsonb.JObject
    [("email", Jsonb.JOther "true");
     ("push", Jsonb.JOther "false");
     ("reminder_times", Jsonb.JOther "[24, 1]")].
End Profile.

Module Notification.
Record t := mk {
  id : uuid;
  event_id : uuid;
  user_id : uuid;
  notification_type : text;
  message : text;
  scheduled_for : timestamptz;
  sent_at : option timestamptz;
  created_at : timestamptz
}.
End Notification.

(** ** The database *)

Record db := mkdb {
  auth_users : list User.t;
  events : list Event.t;
  event_registrations : list Registration.t;
  profiles : list Profile.t;
  event_notifications : list Notification.t
}.

Definition empty_db : db := mkdb [] [] [] [] [].

Definition set_events (d : db) (v : list Event.t) : db :=
  mkdb (auth_users d) v (event_registrations d) (profiles d)
       (event_notifications d).

Definition set_event_registrations (d : db) (v : list Registration.t) : db :=
  mkdb (auth_users d) (events d) v (profiles d) (event_notifications d).

Definition set_profiles (d : db) (v : list Profile.t) : db :=
  mkdb (auth_users d) (events d) (event_registrations d) v
       (event_notifications d).

Definition set_event_notifications (d : db) (v : list Notification.t) : db :=
  mkdb (auth_users d) (events d) (event_registrations d) (profiles d) v.

(** ** Statement results *)

Inductive sqlstate :=
| rls_violation          (* 42501: new row violates row-level security policy *)
| unique_violation       (* 23505 *)
| foreign_key_violation  (* 23503 *)
| check_violation.       (* 23514 *)

Inductive result (A : Type) :=
| Ok (a : A)
| Err (e : sqlstate).
Arguments Ok {A} a.
Arguments Err {A} e.

Definition bind {A B : Type} (r : result A) (k : A -> result B) : result B :=
  match r with
  | Ok a => k a
  | Err e => Err e
  end.

Definition guard (b : bool) (e : sqlstate) : result unit :=
  if b then Ok tt else Err e.

Notation "x <- r ;; k" := (bind r (fun x => k))
  (at level 61, r at next level, right associativity).
Notation "'ensure' b 'else' e ;; k" := (bind (guard b e) (fun _ => k))
  (at level 61, b at next level, e at next level, right associativity).

(** What the store holds once a statement has answered: a failed statement
    is rolled back. *)
Definition state_after (before : db) (r : result db) : db :=
  match r with
  | Ok after => after
  | Err _ => before
  end.

Definition is_ok {A : Type} (r : result A) : bool :=
  match r with
  | Ok _ => true
  | Err _ => false
  end.


(** ** Statements over one table

    The three functions below are the part of a statement that concerns the
    table it names; the policies and constraints of each table instantiate
    them further down.  Foreign keys are checked once the statement has run
    and are left to the callers. *)

Section Rows.
Context {row : Type}.

(** [INSERT].  Each new row in turn is held against the [WITH CHECK] of the
    command's policies and then against the table's [CHECK], primary-key and
    [UNIQUE] constraints, given the rows the table already holds. *)
Fixpoint insert_rows (with_check : row -> bool)
    (violates : list row -> row -> option sqlstate)
    (new tbl : list row) : result (list row) :=
  match new with
  | [] => Ok tbl
  | r :: rest =>
      if with_check r then
        match violates tbl r with
        | Some e => Err e
        | None => insert_rows with_check violates rest (tbl ++ [r])
        end
      else Err rls_violation
  end.

(** [UPDATE].  [target] selects the rows that satisfy the statement's
    [WHERE] and the [USING] of the command's policies; a row that does not
    is skipped without an error.  [new_row] is the [SET] list followed by
    the table's [BEFORE UPDATE] trigger.  The new row is held against the
    policies' check and the table constraints, the other rows being as the
    statement has left them so far. *)
Fixpoint update_rows (target : row -> bool) (new_row : row -> row)
    (with_check : row -> bool)
    (violates : list row -> row -> option sqlstate)
    (done todo : list row) : result (list row) :=
  match todo with
  | [] => Ok done
  | r :: rest =>
      if target r then
        if with_check (new_row r) then
          match violates (done ++ rest) (new_row r) with
          | Some e => Err e
          | None =>
              update_rows target new_row with_check violates
                (done ++ [new_row r]) rest
          end
        else Err rls_violation
      else update_rows target new_row with_check violates (done ++ [r]) rest
  end.

(** What an accepted [UPDATE] leaves in the place of a row. *)
Definition updated (target : row -> bool) (new_row : row -> row) (r : row)
  : row :=
  if target r then new_row r else r.

(** [DELETE].  Rows outside [target] stay, without an error. *)
Definition delete_rows (target : row -> bool) (tbl : list row) : list row :=
  filter (fun r => negb (target r)) tbl.

End Rows.

Definition mem (x : uuid) (xs : list uuid) : bool :=
  existsb (String.eqb x) xs.

Definition has_user (d : db) (u : uuid) : bool :=
  mem u (map User.id (auth_users d)).

Definition has_event (d : db) (e : uuid) : bool :=
  mem e (map Event.id (events d)).

(** A nullable reference is satisfied by [NULL]. *)
Definition has_user_or_null (d : db) (u : option uuid) : bool :=
  match u with
  | None => true
  | Some x => has_user d x
  end.

(** ** Row-level security

    [auth.uid()] is [None] for an unauthenticated request.  A policy
    without a [TO] clause applies to every role.  An [UPDATE] policy with
    only a [USING] clause uses it as its [WITH CHECK] as well.  An [UPDATE]
    or [DELETE] with a [WHERE] clause also needs its rows to pass the
    [SELECT] policies; in this schema every [UPDATE] and [DELETE] policy
    implies a [SELECT] policy of its table ([write_policies_imply_select]),
    so the writes below apply the policies of their own command only. *)

Definition policy (row : Type) := option uuid -> db -> row -> bool.

Definition permissive {row : Type} (ps : list (policy row)) : policy row :=
  fun uid d r => existsb (fun p => p uid d r) ps.

(** *** events *)

Definition Public_events_are_viewable_by_everyone : policy Event.t :=
  fun _ _ e => Sql.holds (Sql.eq_bool (Event.is_public e) (Some true)).

Definition Users_can_view_their_own_events : policy Event.t :=
  fun uid _ e => Sql.holds (Sql.eq_text uid (Event.created_by e)).

Definition Authenticated_users_can_create_events : policy Event.t :=
  fun uid _ e => Sql.holds (Sql.eq_text uid (Event.created_by e)).

Definition Users_can_update_their_own_events : policy Event.t :=
  fun uid _ e => Sql.holds (Sql.eq_text uid (Event.created_by e)).

Definition Users_can_delete_their_own_events : policy Event.t :=
  fun uid _ e => Sql.holds (Sql.eq_text uid (Event.created_by e)).

Definition events_select : policy Event.t :=
  permissive [Public_events_are_viewable_by_everyone;
              Users_can_view_their_own_events].
Definition events_insert : policy Event.t :=
  permissive [Authenticated_users_can_create_events].
Definition events_update : policy Event.t :=
  permissive [Users_can_update_their_own_events].
Definition events_delete : policy Event.t :=
  permissive [Users_can_delete_their_own_events].

Definition select_events (uid : option uuid) (d : db) : list Event.t :=
  filter (events_select uid d) (events d).

(** *** event_registrations *)

Definition Users_can_view_their_own_registrations : policy Registration.t :=
  fun uid _ r => Sql.holds (Sql.eq_text uid (Some (Registration.user_id r))).

(** The sub-select runs as the caller, so it ranges over the events the
    caller can read. *)
Definition Event_creators_can_view_all_registrations_for_their_events
  : policy Registration.t :=
  fun uid d r =>
    existsb
      (fun e =>
         Sql.holds (Sql.eq_text (Some (Event.id e))
                                (Some (Registration.event_id r)))
         && Sql.holds (Sql.eq_text (Event.created_by e) uid))
      (select_events uid d).

Definition Users_can_register_for_events : policy Registration.t :=
  fun uid _ r => Sql.holds (Sql.eq_text uid (Some (Registration.user_id r))).

Definition Users_can_cancel_their_own_registrations : policy Registration.t :=
  fun uid _ r => Sql.holds (Sql.eq_text uid (Some (Registration.user_id r))).

Definition Users_can_delete_their_own_registrations : policy Registration.t :=
  fun uid _ r => Sql.holds (Sql.eq_text uid (Some (Registration.user_id r))).

Definition event_registrations_select : policy Registration.t :=
  permissive [Users_can_view_their_own_registrations;
              Event_creators_can_view_all_registrations_for_their_events].
Definition event_registrations_insert : policy Registration.t :=
  permissive [Users_can_register_for_events].
Definition event_registrations_update : policy Registration.t :=
  permissive [Users_can_cancel_their_own_registrations].
Definition event_registrations_delete : policy Registration.t :=
  permissive [Users_can_delete_their_own_registrations].

Definition select_event_registrations (uid : option uuid) (d : db)
  : list Registration.t :=
  filter (event_registrations_select uid d) (event_registrations d).

(** *** profiles *)

Definition Users_can_view_their_own_profile : policy Profile.t :=
  fun uid _ p => Sql.holds (Sql.eq_text uid (Some (Profile.user_id p))).

Definition Users_can_create_their_own_profile : policy Profile.t :=
  fun uid _ p => Sql.holds (Sql.eq_text uid (Some (Profile.user_id p))).

Definition Users_can_update_their_own_profile : policy Profile.t :=
  fun uid _ p => Sql.holds (Sql.eq_text uid (Some (Profile.user_id p))).

Definition profiles_select : policy Profile.t :=
  permissive [Users_can_view_their_own_profile].
Definition profiles_insert : policy Profile.t :=
  permissive [Users_can_create_their_own_profile].
Definition profiles_update : policy Profile.t :=
  permissive [Users_can_update_their_own_profile].
Definition profiles_delete : policy Profile.t :=
  permissive [].

Definition select_profiles (uid : option uuid) (d : db) : list Profile.t :=
  filter (profiles_select uid d) (profiles d).

(** *** event_notifications *)

Definition Users_can_view_their_own_notifications : policy Notification.t :=
  fun uid _ n => Sql.holds (Sql.eq_text uid (Some (Notification.user_id n))).

Definition System_can_create_notifications : policy Notification.t :=
  fun _ _ _ => Sql.holds (Some true).

Definition event_notifications_select : policy Notification.t :=
  permissive [Users_can_view_their_own_notifications].
Definition event_notifications_insert : policy Notification.t :=
  permissive [System_can_create_notifications].
Definition event_notifications_update : policy Notification.t :=
  permissive [].
Definition event_notifications_delete : policy Notification.t :=
  permissive [].

Definition select_event_notifications (uid : option uuid) (d : db)
  : list Notification.t :=
  filter (event_notifications_select uid d) (event_notifications d).

(** ** Table constraints

    Each function answers with the SQLSTATE that inserting [r] next to the
    rows [tbl] raises, if any.  [NOT NULL] columns are non-optional fields. *)

Definition events_violates (tbl : list Event.t) (e : Event.t)
  : option sqlstate :=
  if mem (Event.id e) (map Event.id tbl) then Some unique_violation
  else None.

Definition same_event_and_user (a b : Registration.t) : bool :=
  String.eqb (Registration.event_id a) (Registration.event_id b)
  && String.eqb (Registration.user_id a) (Registration.user_id b).

Definition event_registrations_violates (tbl : list Registration.t)
    (r : Registration.t) : option sqlstate :=
  if negb (Sql.check (Sql.in_list (Registration.status r)
                        ["registered"; "cancelled"; "waitlist"]))
  then Some check_violation
  else if mem (Registration.id r) (map Registration.id tbl)
  then Some unique_violation
  else if existsb (same_event_and_user r) tbl then Some unique_violation
  else None.

Definition profiles_violates (tbl : list Profile.t) (p : Profile.t)
  : option sqlstate :=
  if mem (Profile.id p) (map Profile.id tbl) then Some unique_violation
  else if mem (Profile.user_id p) (map Profile.user_id tbl)
  then Some unique_violation
  else None.

Definition event_notifications_violates (tbl : list Notification.t)
    (n : Notification.t) : option sqlstate :=
  if negb (Sql.check (Sql.in_list (Some (Notification.notification_type n))
                        ["reminder"; "change"; "cancellation"]))
  then Some check_violation
  else if mem (Notification.id n) (map Notification.id tbl)
  then Some unique_violation
  else None.

(** ** Trigger functions *)

(** The tables that carry an [updated_at] column. *)
Class UpdatedAt (row : Type) := {
  updated_at : row -> timestamptz;
  set_updated_at : timestamptz -> row -> row
}.

#[export] Instance events_UpdatedAt : UpdatedAt Event.t :=
  {| updated_at := Event.updated_at;
     set_updated_at := Event.with_updated_at |}.

#[export] Instance profiles_UpdatedAt : UpdatedAt Profile.t :=
  {| updated_at := Profile.updated_at;
     set_updated_at := Profile.with_updated_at |}.

(** [NEW.updated_at = now(); RETURN NEW;] *)
Definition update_updated_at_column {row : Type} `{UpdatedAt row}
    (now : timestamptz) (NEW : row) : row :=
  set_updated_at now NEW.

(** [BEFORE UPDATE ON public.events FOR EACH ROW] *)
Definition update_events_updated_at (now : timestamptz) (NEW : Event.t)
  : Event.t :=
  update_updated_at_column now NEW.

(** [BEFORE UPDATE ON public.profiles FOR EACH ROW] *)
Definition update_profiles_updated_at (now : timestamptz) (NEW : Profile.t)
  : Profile.t :=
  update_updated_at_column now NEW.

(** [INSERT INTO public.profiles (user_id, display_name, email) VALUES
    (NEW.id, COALESCE(NEW.raw_user_meta_data ->> 'display_name', NEW.email),
    NEW.email)].  The remaining columns take their defaults.  The function
    is [SECURITY DEFINER]: the insert runs as the owner of the table, to
    whom no policy applies, and is held against the constraints only.  An
    error raised here fails the statement that fired the trigger. *)
Definition handle_new_user (gen : uuid) (now : timestamptz) (NEW : User.t)
    (d : db) : result db :=
  let p :=
    Profile.mk gen (User.id NEW)
      (Sql.coalesce
         (Jsonb.get_text (User.raw_user_meta_data NEW) "display_name")
         (User.email NEW))
      (User.email NEW)
      None (Some Profile.default_notification_preferences) now now in
  ps <- insert_rows (fun _ => true) profiles_violates [p] (profiles d) ;;
  ensure has_user d (Profile.user_id p) else foreign_key_violation ;;
  Ok (set_profiles d ps).

(** [AFTER INSERT ON auth.users FOR EACH ROW] *)
Definition on_auth_user_created (gen : uuid) (now : timestamptz)
    (NEW : User.t) (d : db) : result db :=
  handle_new_user gen now NEW d.

(** ** Writes *)

(** *** auth.users, written by the identity provider *)

Definition insert_auth_users (gen : uuid) (now : timestamptz) (u : User.t)
    (d : db) : result db :=
  ensure negb (has_user d (User.id u)) else unique_violation ;;
  on_auth_user_created gen now u
    (mkdb (auth_users d ++ [u]) (events d) (event_registrations d)
          (profiles d) (event_notifications d)).

(** Every reference to [auth.users(id)] and to [public.events(id)] is
    [ON DELETE CASCADE]; referential actions are not subject to policies. *)
Definition delete_auth_users (ids : list uuid) (d : db) : result db :=
  let owned e :=
    match Event.created_by e with
    | Some u => mem u ids
    | None => false
    end in
  let gone := map Event.id (filter owned (events d)) in
  Ok (mkdb
        (filter (fun u => negb (mem (User.id u) ids)) (auth_users d))
        (filter (fun e => negb (owned e)) (events d))
        (filter (fun r => negb (mem (Registration.user_id r) ids)
                          && negb (mem (Registration.event_id r) gone))
                (event_registrations d))
        (filter (fun p => negb (mem (Profile.user_id p) ids)) (profiles d))
        (filter (fun n => negb (mem (Notification.user_id n) ids)
                          && negb (mem (Notification.event_id n) gone))
                (event_notifications d))).

(** *** events *)

Definition insert_events (uid : option uuid) (rows : list Event.t) (d : db)
  : result db :=
  evs <- insert_rows (events_insert uid d) events_violates rows (events d) ;;
  ensure forallb (fun e => has_user_or_null d (Event.created_by e)) rows
    else foreign_key_violation ;;
  Ok (set_events d evs).

(** The references to [events(id)] have no [ON UPDATE] action: a statement
    that leaves a registration or a notification without its event fails. *)
Definition references_kept (before after : db) : bool :=
  forallb (fun r => implb (has_event before (Registration.event_id r))
                          (has_event after (Registration.event_id r)))
          (event_registrations before)
  && forallb (fun n => implb (has_event before (Notification.event_id n))
                             (has_event after (Notification.event_id n)))
             (event_notifications before).

Definition update_events (uid : option uuid) (now : timestamptz)
    (where_ : Event.t -> bool) (assign : Event.t -> Event.t) (d : db)
  : result db :=
  let target e := where_ e && events_update uid d e in
  let new_row e := update_events_updated_at now (assign e) in
  evs <- update_rows target new_row (events_update uid d) events_violates
           [] (events d) ;;
  ensure forallb (fun e => has_user_or_null d (Event.created_by e))
           (map new_row (filter target (events d)))
    else foreign_key_violation ;;
  ensure references_kept d (set_events d evs) else foreign_key_violation ;;
  Ok (set_events d evs).

Definition delete_events (uid : option uuid) (where_ : Event.t -> bool)
    (d : db) : result db :=
  let target e := where_ e && events_delete uid d e in
  let gone := map Event.id (filter target (events d)) in
  Ok (mkdb
        (auth_users d)
        (delete_rows target (events d))
        (filter (fun r => negb (mem (Registration.event_id r) gone))
                (event_registrations d))
        (profiles d)
        (filter (fun n => negb (mem (Notification.event_id n) gone))
                (event_notifications d))).

(** *** event_registrations *)

Definition registration_references (d : db) (r : Registration.t) : bool :=
  has_event d (Registration.event_id r)
  && has_user d (Registration.user_id r).

Definition insert_event_registrations (uid : option uuid)
    (rows : list Registration.t) (d : db) : result db :=
  regs <- insert_rows (event_registrations_insert uid d)
            event_registrations_violates rows (event_registrations d) ;;
  ensure forallb (registration_references d) rows
    else foreign_key_violation ;;
  Ok (set_event_registrations d regs).

Definition update_event_registrations (uid : option uuid)
    (where_ : Registration.t -> bool)
    (assign : Registration.t -> Registration.t) (d : db) : result db :=
  let target r := where_ r && event_registrations_update uid d r in
  regs <- update_rows target assign (event_registrations_update uid d)
            event_registrations_violates [] (event_registrations d) ;;
  ensure forallb (registration_references d)
           (map assign (filter target (event_registrations d)))
    else foreign_key_violation ;;
  Ok (set_event_registrations d regs).

Definition delete_event_registrations (uid : option uuid)
    (where_ : Registration.t -> bool) (d : db) : result db :=
  let target r := where_ r && event_registrations_delete uid d r in
  Ok (set_event_registrations d (delete_rows target (event_registrations d))).

(** *** profiles *)

Definition insert_profiles (uid : option uuid) (rows : list Profile.t)
    (d : db) : result db :=
  ps <- insert_rows (profiles_insert uid d) profiles_violates rows
          (profiles d) ;;
  ensure forallb (fun p => has_user d (Profile.user_id p)) rows
    else foreign_key_violation ;;
  Ok (set_profiles d ps).

Definition update_profiles (uid : option uuid) (now : timestamptz)
    (where_ : Profile.t -> bool) (assign : Profile.t -> Profile.t) (d : db)
  : result db :=
  let target p := where_ p && profiles_update uid d p in
  let new_row p := update_profiles_updated_at now (assign p) in
  ps <- update_rows target new_row (profiles_update uid d) profiles_violates
          [] (profiles d) ;;
  ensure forallb (fun p => has_user d (Profile.user_id p))
           (map new_row (filter target (profiles d)))
    else foreign_key_violation ;;
  Ok (set_profiles d ps).

Definition delete_profiles (uid : option uuid) (where_ : Profile.t -> bool)
    (d : db) : result db :=
  let target p := where_ p && profiles_delete uid d p in
  Ok (set_profiles d (delete_rows target (profiles d))).

(** *** event_notifications *)

Definition notification_references (d : db) (n : Notification.t) : bool :=
  has_event d (Notification.event_id n)
  && has_user d (Notification.user_id n).

Definition insert_event_notifications (uid : option uuid)
    (rows : list Notification.t) (d : db) : result db :=
  ns <- insert_rows (event_notifications_insert uid d)
          event_notifications_violates rows (event_notifications d) ;;
  ensure forallb (notification_references d) rows
    else foreign_key_violation ;;
  Ok (set_event_notifications d ns).

Definition update_event_notifications (uid : option uuid)
    (where_ : Notification.t -> bool)
    (assign : Notification.t -> Notification.t) (d : db) : result db :=
  let target n := where_ n && event_notifications_update uid d n in
  ns <- update_rows target assign (event_notifications_update uid d)
          event_notifications_violates [] (event_notifications d) ;;
  ensure forallb (notification_references d)
           (map assign (filter target (event_notifications d)))
    else foreign_key_violation ;;
  Ok (set_event_notifications d ns).

Definition delete_event_notifications (uid : option uuid)
    (where_ : Notification.t -> bool) (d : db) : result db :=
  let target n := where_ n && event_notifications_delete uid d n in
  Ok (set_event_notifications d
        (delete_rows target (event_notifications d))).

(** ** Histories of the store *)

Inductive statement :=
| InsertAuthUsers (gen : uuid) (now : timestamptz) (u : User.t)
| DeleteAuthUsers (ids : list uuid)
| InsertEvents (uid : option uuid) (rows : list Event.t)
| UpdateEvents (uid : option uuid) (now : timestamptz)
    (where_ : Event.t -> bool) (assign : Event.t -> Event.t)
| DeleteEvents (uid : option uuid) (where_ : Event.t -> bool)
| InsertEventRegistrations (uid : option uuid) (rows : list Registration.t)
| UpdateEventRegistrations (uid : option uuid)
    (where_ : Registration.t -> bool)
    (assign : Registration.t -> Registration.t)
| DeleteEventRegistrations (uid : option uuid)
    (where_ : Registration.t -> bool)
| InsertProfiles (uid : option uuid) (rows : list Profile.t)
| UpdateProfiles (uid : option uuid) (now : timestamptz)
    (where_ : Profile.t -> bool) (assign : Profile.t -> Profile.t)
| DeleteProfiles (uid : option uuid) (where_ : Profile.t -> bool)
| InsertEventNotifications (uid : option uuid) (rows : list Notification.t)
| UpdateEventNotifications (uid : option uuid)
    (where_ : Notification.t -> bool)
    (assign : Notification.t -> Notification.t)
| DeleteEventNotifications (uid : option uuid)
    (where_ : Notification.t -> bool).

Definition execute (s : statement) (d : db) : result db :=
  match s with
  | InsertAuthUsers gen now u => insert_auth_users gen now u d
  | DeleteAuthUsers ids => delete_auth_users ids d
  | InsertEvents uid rows => insert_events uid rows d
  | UpdateEvents uid now w a => update_events uid now w a d
  | DeleteEvents uid w => delete_events uid w d
  | InsertEventRegistrations uid rows => insert_event_registrations uid rows d
  | UpdateEventRegistrations uid w a => update_event_registrations uid w a d
  | DeleteEventRegistrations uid w => delete_event_registrations uid w d
  | InsertProfiles uid rows => insert_profiles uid rows d
  | UpdateProfiles uid now w a => update_profiles uid now w a d
  | DeleteProfiles uid w => delete_profiles uid w d
  | InsertEventNotifications uid rows => insert_event_notifications uid rows d
  | UpdateEventNotifications uid w a => update_event_notifications uid w a d
  | DeleteEventNotifications uid w => delete_event_notifications uid w d
  end.

Fixpoint run (ss : list statement) (d : db) : db :=
  match ss with
  | [] => d
  | s :: rest => run rest (state_after d (execute s d))
  end.

(** The states the store can be in: those a history of statements leads to
    from the freshly migrated, empty database. *)
Definition reachable (d : db) : Prop :=
  exists ss, run ss empty_db = d.

(** ** JavaScript values *)

Module Js.
(** Truthiness of a [string | undefined]. *)
Definition truthy_string (s : option text) : bool :=
  match s with
  | Some x => negb (String.eqb x "")
  | None => false
  end.

(** Truthiness of a [boolean | null]. *)
Definition truthy_bool (b : option bool) : bool :=
  match b with
  | Some true => true
  | _ => false
  end.

(** Truthiness of a [number | null]. *)
Definition truthy_number (n : option Z) : bool :=
  match n with
  | Some x => negb (x =? 0)
  | None => false
  end.

(** [a === b] for [a : string | undefined] and [b : string | null]:
    [undefined] and [null] are not strictly equal. *)
Definition strict_eq (a b : option text) : bool :=
  match a, b with
  | Some x, Some y => String.eqb x y
  | _, _ => false
  end.
End Js.

(** ** The event-details dialog *)

Module EventDetails.

Record props := mkprops {
  isOpen : bool;
  event : option Event.t;
  currentUserId : option uuid
}.

Record state := mk {
  registration : option Registration.t;
  registrationCount : Z;
  loading : bool
}.

(** [useState(null)], [useState(0)], [useState(false)] *)
Definition initial : state := mk None 0 false.

Definition setLoading (b : bool) (st : state) : state :=
  mk (registration st) (registrationCount st) b.

Inductive toast :=
| Success (description : text)
| Error (message : sqlstate)
| ErrorText (description : text).

(** [.single()]: the row when the answer holds exactly one, else no data. *)
Definition single {A : Type} (rows : list A) : option A :=
  match rows with
  | [r] => Some r
  | _ => None
  end.

Definition is_registered (r : Registration.t) : bool :=
  Sql.holds (Sql.eq_text (Registration.status r) (Some "registered")).

(** The session [uid] is what the store sees as [auth.uid()]; both reads
    go through the select policies of [event_registrations].  [count || 0]
    is the count itself. *)
Definition fetchRegistrationInfo (uid : option uuid) (d : db) (p : props)
    (st : state) : state :=
  match event p, currentUserId p with
  | Some ev, Some me =>
      if Js.truthy_string (currentUserId p) then
        let userRegistration :=
          single
            (filter
               (fun r => String.eqb (Registration.event_id r) (Event.id ev)
                         && String.eqb (Registration.user_id r) me
                         && is_registered r)
               (select_event_registrations uid d)) in
        let count :=
          Z.of_nat
            (List.length
               (filter
                  (fun r => String.eqb (Registration.event_id r) (Event.id ev)
                            && is_registered r)
                  (select_event_registrations uid d))) in
        mk userRegistration count (loading st)
      else st
  | _, _ => st
  end.

(** [useEffect(..., [event, currentUserId, isOpen])] *)
Definition useEffect (uid : option uuid) (d : db) (p : props) (st : state)
  : state :=
  match event p with
  | Some _ =>
      if Js.truthy_string (currentUserId p) && isOpen p
      then fetchRegistrationInfo uid d p st
      else st
  | None => st
  end.

(** The inserted object names [event_id], [user_id] and [status]; [id] and
    [registered_at] take their defaults. *)
Definition handleRegister (uid : option uuid) (gen : uuid)
    (now : timestamptz) (d : db) (p : props) (st : state)
  : db * state * option toast :=
  match event p, currentUserId p with
  | Some ev, Some me =>
      if Js.truthy_string (currentUserId p) then
        match insert_event_registrations uid
                [Registration.mk gen (Event.id ev) me now (Some "registered")]
                d with
        | Err e => (d, setLoading false st, Some (Error e))
        | Ok d' =>
            (d', setLoading false (fetchRegistrationInfo uid d' p st),
             Some (Success "Successfully registered for the event!"))
        end
      else (d, st, None)
  | _, _ => (d, st, None)
  end.

Definition handleUnregister (uid : option uuid) (d : db) (p : props)
    (st : state) : db * state * option toast :=
  match registration st with
  | Some reg =>
      if Js.truthy_string (currentUserId p) then
        match delete_event_registrations uid
                (fun r => String.eqb (Registration.id r) (Registration.id reg))
                d with
        | Err e => (d, setLoading false st, Some (Error e))
        | Ok d' =>
            (d', setLoading false (fetchRegistrationInfo uid d' p st),
             Some (Success "Successfully unregistered from the event."))
        end
      else (d, st, None)
  | None => (d, st, None)
  end.

Definition handleDeleteEvent (uid : option uuid) (d : db) (p : props)
    (st : state) : db * state * option toast :=
  match event p with
  | Some ev =>
      if Js.truthy_string (currentUserId p) then
        if negb (Js.strict_eq (currentUserId p) (Event.created_by ev)) then
          (d, st, Some (ErrorText "You can only delete events you created."))
        else
          match delete_events uid
                  (fun e => String.eqb (Event.id e) (Event.id ev)) d with
          | Err e => (d, setLoading false st, Some (Error e))
          | Ok d' =>
              (d', setLoading false st,
               Some (Success "Event deleted successfully."))
          end
      else (d, st, None)
  | None => (d, st, None)
  end.

(** *** What the dialog renders, for a non-null [event] *)

Definition isEventCreator (p : props) (ev : Event.t) : bool :=
  Js.strict_eq (currentUserId p) (Event.created_by ev).

Definition canRegister (p : props) (ev : Event.t) (st : state) : bool :=
  match registration st with
  | None => Js.truthy_bool (Event.is_public ev) && negb (isEventCreator p ev)
  | Some _ => false
  end.

Definition canUnregister (st : state) : bool :=
  match registration st with
  | Some reg =>
      match Registration.status reg with
      | Some s => String.eqb s "registered"
      | None => false
      end
  | None => false
  end.

Definition isFull (ev : Event.t) (st : state) : bool :=
  Js.truthy_number (Event.max_attendees ev)
  && match Event.max_attendees ev with
     | Some n => n <=? registrationCount st
     | None => false
     end.

Inductive button :=
| RegisterButton (disabled : bool)
| EventFullButton
| UnregisterButton (disabled : bool)
| EditButton
| DeleteButton (disabled : bool).

Definition buttons (p : props) (st : state) : list button :=
  match event p with
  | None => []
  | Some ev =>
      (if canRegister p ev st && negb (isFull ev st)
       then [RegisterButton (loading st)] else [])
      ++ (if canRegister p ev st && isFull ev st then [EventFullButton] else [])
      ++ (if canUnregister st then [UnregisterButton (loading st)] else [])
      ++ (if isEventCreator p ev then [EditButton; DeleteButton (loading st)] else [])
  end.

Definition offers (b : button) (p : props) (st : state) : bool :=
  existsb
    (fun x =>
       match b, x with
       | RegisterButton _, RegisterButton false => true
       | UnregisterButton _, UnregisterButton false => true
       | DeleteButton _, DeleteButton false => true
       | EditButton, EditButton => true
       | _, _ => false
       end)
    (buttons p st).

(** A click reaches [handleRegister] only through the rendered, enabled
    RegisterButton button. *)
Definition click_register (uid : option uuid) (gen : uuid)
    (now : timestamptz) (d : db) (p : props) (st : state)
  : db * state * option toast :=
  if offers (RegisterButton false) p st then handleRegister uid gen now d p st
  else (d, st, None).

Definition click_unregister (uid : option uuid) (d : db) (p : props)
    (st : state) : db * state * option toast :=
  if offers (UnregisterButton false) p st then handleUnregister uid d p st
  else (d, st, None).

(** One registration attempt of the signed-in user [me]: the dialog is
    opened on [ev] with a fresh component state, the effect loads the
    registration info, and the user clicks RegisterButton if it is there. *)
Definition attempt_registration (me gen : uuid) (now : timestamptz)
    (ev : Event.t) (d : db) : db * state * option toast :=
  let p := mkprops true (Some ev) (Some me) in
  click_register (Some me) gen now d p (useEffect (Some me) d p initial).

End EventDetails.

(** ** The calendar *)

Module Calendar.

(** One object of the answer to
    [select("*, event_registrations!inner(count)")]: every column of the
    event and the embedded resource, here a single object with the count. *)
Record embedded := mkembedded { count : Z }.

Record fetched := mkfetched {
  columns : Event.t;
  event_registrations : list embedded
}.

(** The component's [Event]: the columns and [registration_count]. *)
Record event := mkevent {
  row : Event.t;
  registration_count : Z
}.

Record state := mk {
  selectedDate : option timestamptz;
  events : list event;
  loading : bool
}.

(** The registrations embedded under an event are those the caller can
    read. *)
Definition embed (uid : option uuid) (d : db) (e : Event.t)
  : list Registration.t :=
  filter (fun r => String.eqb (Registration.event_id r) (Event.id e))
         (select_event_registrations uid d).

(** The answer to [event_registrations!inner(count)].  [count] is no
    column of [event_registrations], so what is embedded under an event is
    the aggregate: the number of the event's registrations that the caller
    can read.  An aggregate yields one object also over no row at all, so
    the embedded resource is never empty and [!inner], which drops the
    events whose embedded resource is empty, drops none. *)
Definition inner (uid : option uuid) (d : db) : list fetched :=
  map (fun e =>
         mkfetched e [mkembedded (Z.of_nat (List.length (embed uid d e)))])
      (select_events uid d).

(** [ORDER BY start_time ASC].  SQL leaves the order of rows with equal
    keys open; here they keep the order they have in the table. *)
Fixpoint place (x : fetched) (l : list fetched) : list fetched :=
  match l with
  | [] => [x]
  | y :: rest =>
      if Event.start_time (columns x) <=? Event.start_time (columns y)
      then x :: l
      else y :: place x rest
  end.

Definition order (l : list fetched) : list fetched :=
  fold_right place [] l.

(** The request that [fetchEvents] issues; [now] is [new Date()]. *)
Definition query (uid : option uuid) (now : timestamptz) (d : db)
  : list fetched :=
  order
    (filter (fun x => now <=? Event.start_time (columns x)) (inner uid d)).

(** [registration_count: event.event_registrations?.length || 0] *)
Definition processedEvents (data : list fetched) : list event :=
  map (fun x => mkevent (columns x)
                        (Z.of_nat (List.length (event_registrations x))))
      data.

Definition fetchEvents (uid : option uuid) (now : timestamptz) (d : db)
    (st : state) : state :=
  mk (selectedDate st) (processedEvents (query uid now d)) false.

(** [isSameDay] of date-fns compares calendar days in the browser's time
    zone; [zone] is the offset of that zone at an instant. *)
Definition isSameDay (zone : timestamptz -> Z) (a b : timestamptz) : bool :=
  (a + zone a) / 86400000000 =? (b + zone b) / 86400000000.

Definition eventsForSelectedDate (zone : timestamptz -> Z) (st : state)
  : list event :=
  match selectedDate st with
  | Some day =>
      filter (fun e => isSameDay zone (Event.start_time (row e)) day)
             (events st)
  | None => []
  end.

(** [modifiers={{ hasEvent: getEventDates() }}] *)
Definition getEventDates (st : state) : list timestamptz :=
  map (fun e => Event.start_time (row e)) (events st).

End Calendar.

(** ** Notions used by the statements below *)

(** The columns of [UNIQUE(event_id, user_id)]. *)
Definition registration_key (r : Registration.t) : uuid * uuid :=
  (Registration.event_id r, Registration.user_id r).

(** The rows that count against [max_attendees]. *)
Definition registered_for (event_id : uuid) (d : db) : list Registration.t :=
  filter (fun r => String.eqb (Registration.event_id r) event_id
                   && EventDetails.is_registered r)
         (event_registrations d).

(** What the constraints of the schema keep true of the store, as far as
    the statements below need it. *)
Record consistent (d : db) : Prop := {
  registrations_unique :
    NoDup (map registration_key (event_registrations d));
  profiles_have_user :
    forall p, In p (profiles d) -> has_user d (Profile.user_id p) = true
}.

(** The order that [ORDER BY start_time ASC] asks for. *)
Definition by_start_time (a b : Calendar.fetched) : Prop :=
  Event.start_time (Calendar.columns a)
  <= Event.start_time (Calendar.columns b).




(** ** A small deployment

    Carol owns a public event with one seat; Ann and Bob have signed up to
    the application. *)

Module Scenario.

Definition carol : User.t := User.mk "carol" (Some "carol@example.org") None.

Definition ann : User.t :=
  User.mk "ann" (Some "ann@example.org")
    (Some (Jsonb.JObject [("display_name", Jsonb.JString "Ann")])).

Definition bob : User.t := User.mk "bob" (Some "bob@example.org") None.

Definition party : Event.t :=
  Event.mk "party" "Party" None 1000 2000 None (Some 1) (Some "carol")
    10 10 (Some true) (Some "general") None.

Definition signups : list statement :=
  [InsertAuthUsers "profile-carol" 1 carol;
   InsertAuthUsers "profile-ann" 2 ann;
   InsertAuthUsers "profile-bob" 3 bob].

Definition opened : db :=
  run (signups ++ [InsertEvents (Some "carol") [party]]) empty_db.

Definition after_ann : db :=
  fst (fst (EventDetails.attempt_registration "ann" "reg-ann" 20 party
              opened)).

Definition after_bob : db :=
  fst (fst (EventDetails.attempt_registration "bob" "reg-bob" 30 party
              after_ann)).

(** Carol has made her event private after the calendars were loaded. *)
Definition hidden : db :=
  state_after opened
    (update_events (Some "carol") 15
       (fun e => String.eqb (Event.id e) "party")
       (fun e => Event.mk (Event.id e) (Event.title e) (Event.description e)
                   (Event.start_time e) (Event.end_time e)
                   (Event.location e) (Event.max_attendees e)
                   (Event.created_by e) (Event.created_at e)
                   (Event.updated_at e) (Some false)
                   (Event.event_type e) (Event.metadata e))
       opened).

End Scenario.

(** ** The notification settings dialog *)

Module NotificationSettings.

(** [reminder_times] are hours before the event, some of them fractions
    ([0.5], [0.25]); a finite JavaScript number is taken as the rational it
    denotes, on which [===], [includes] and the sign of [b - a] are exact. *)
Definition number := QArith_base.Q.

Record NotificationPreferences := mk {
  email : bool;
  push : bool;
  reminder_times : list number
}.

(** [useState({ email: true, push: false, reminder_times: [24, 1] })] *)
Definition initial : NotificationPreferences :=
  mk true false [QArith_base.inject_Z 24; QArith_base.inject_Z 1].

Definition reminderOptions : list number :=
  [QArith_base.inject_Z 168; QArith_base.inject_Z 72;
   QArith_base.inject_Z 24; QArith_base.inject_Z 12;
   QArith_base.inject_Z 6; QArith_base.inject_Z 3;
   QArith_base.inject_Z 1;
   QArith_base.Qmake 1 2; QArith_base.Qmake 1 4].

(** [l.includes(t)] *)
Definition includes (l : list number) (t : number) : bool :=
  existsb (QArith_base.Qeq_bool t) l.

(** [l.sort((a, b) => b - a)]: descending; the sort is stable, so of two
    equal numbers the one that came first stays first. *)
Fixpoint place (x : number) (l : list number) : list number :=
  match l with
  | [] => [x]
  | y :: rest =>
      if QArith_base.Qle_bool y x then x :: l else y :: place x rest
  end.

Definition sort (l : list number) : list number :=
  fold_right place [] l.

Definition toggleReminderTime (time : number)
    (prev : NotificationPreferences) : NotificationPreferences :=
  mk (email prev) (push prev)
     (if includes (reminder_times prev) time
      then filter (fun t => negb (QArith_base.Qeq_bool t time))
                  (reminder_times prev)
      else sort (reminder_times prev ++ [time])).

(** [checked={preferences.reminder_times.includes(option.value)}] *)
Definition checked (prefs : NotificationPreferences) (option : number)
  : bool :=
  includes (reminder_times prefs) option.

End NotificationSettings.

(** ** Further notions *)

(** The caller on whose behalf a statement runs; the identity provider's
    writes to [auth.users] run on nobody's behalf. *)
Definition issued_by (s : statement) : option (option uuid) :=
  match s with
  | InsertAuthUsers _ _ _ => None
  | DeleteAuthUsers _ => None
  | InsertEvents uid _ => Some uid
  | UpdateEvents uid _ _ _ => Some uid
  | DeleteEvents uid _ => Some uid
  | InsertEventRegistrations uid _ => Some uid
  | UpdateEventRegistrations uid _ _ => Some uid
  | DeleteEventRegistrations uid _ => Some uid
  | InsertProfiles uid _ => Some uid
  | UpdateProfiles uid _ _ _ => Some uid
  | DeleteProfiles uid _ => Some uid
  | InsertEventNotifications uid _ => Some uid
  | UpdateEventNotifications uid _ _ => Some uid
  | DeleteEventNotifications uid _ => Some uid
  end.

(** Primary keys, and the one-to-one link between identities and
    profiles. *)
Record keyed (d : db) : Prop := {
  users_pk : NoDup (map User.id (auth_users d));
  events_pk : NoDup (map Event.id (events d));
  registrations_pk : NoDup (map Registration.id (event_registrations d));
  profiles_pk : NoDup (map Profile.id (profiles d));
  notifications_pk : NoDup (map Notification.id (event_notifications d));
  profiles_user_unique : NoDup (map Profile.user_id (profiles d));
  users_have_profile :
    forall u, In u (auth_users d) ->
              In (User.id u) (map Profile.user_id (profiles d))
}.

(** Every reference names a row that exists. *)
Record referenced (d : db) : Prop := {
  events_reference :
    forall e, In e (events d) ->
              has_user_or_null d (Event.created_by e) = true;
  registrations_reference :
    forall r, In r (event_registrations d) ->
              registration_references d r = true;
  notifications_reference :
    forall n, In n (event_notifications d) ->
              notification_references d n = true
}.

(** The [CHECK] constraints. *)
Definition status_allowed (r : Registration.t) : Prop :=
  Registration.status r = None
  \/ Registration.status r = Some "registered"
  \/ Registration.status r = Some "cancelled"
  \/ Registration.status r = Some "waitlist".

Definition notification_type_allowed (n : Notification.t) : Prop :=
  Notification.notification_type n = "reminder"
  \/ Notification.notification_type n = "change"
  \/ Notification.notification_type n = "cancellation".

(** Descending order of reminder times. *)
Definition descending (a b : NotificationSettings.number) : Prop :=
  QArith_base.Qle b a.

(** * Properties *)

(** ** Lists and keys *)

Lemma mem_In (x : uuid) (xs : list uuid) : mem x xs = true <-> In x xs.
Proof.
  unfold mem. rewrite existsb_exists. split.
  - intros [y [Hy Heq]]. apply String.eqb_eq in Heq. now subst.
  - intros H. exists x. split; [assumption | apply String.eqb_refl].
Qed.

Lemma mem_false (x : uuid) (xs : list uuid) : mem x xs = false <-> ~ In x xs.
Proof.
  rewrite <- mem_In. destruct (mem x xs); split; congruence.
Qed.

Lemma NoDup_map_filter {A B : Type} (f : A -> B) (keep : A -> bool)
    (l : list A) :
  NoDup (map f l) -> NoDup (map f (filter keep l)).
Proof.
  induction l as [|a l IH]; simpl; intros H; [constructor|].
  inversion H as [|? ? Hnotin Hrest]; subst.
  destruct (keep a); simpl; auto.
  constructor; auto.
  intros Hin. apply Hnotin.
  apply in_map_iff in Hin. destruct Hin as [x [Hx Hinx]].
  apply filter_In in Hinx. apply in_map_iff. exists x. tauto.
Qed.

Lemma filter_all {A : Type} (keep : A -> bool) (l : list A) :
  (forall x, In x l -> keep x = true) -> filter keep l = l.
Proof.
  induction l as [|a l IH]; simpl; intros H; [reflexivity|].
  rewrite (H a (or_introl eq_refl)). f_equal. apply IH. auto.
Qed.

Lemma filter_none {A : Type} (keep : A -> bool) (l : list A) :
  (forall x, In x l -> keep x = false) -> filter keep l = [].
Proof.
  induction l as [|a l IH]; simpl; intros H; [reflexivity|].
  rewrite (H a (or_introl eq_refl)). apply IH. auto.
Qed.

(** ** One-table statements *)

Section RowsFacts.
Context {row : Type}.
Variable with_check : row -> bool.
Variable violates : list row -> row -> option sqlstate.

Lemma insert_rows_ok (new tbl t : list row) :
  insert_rows with_check violates new tbl = Ok t ->
  t = tbl ++ new /\ forallb with_check new = true.
Proof.
  revert tbl. induction new as [|r rest IH]; simpl; intros tbl H.
  - inversion H. now rewrite app_nil_r.
  - destruct (with_check r); [|discriminate].
    destruct (violates tbl r); [discriminate|].
    apply IH in H. destruct H as [-> ->]. now rewrite <- app_assoc.
Qed.



Variable target : row -> bool.
Variable new_row : row -> row.

Lemma update_rows_ok (done todo t : list row) :
  update_rows target new_row with_check violates done todo = Ok t ->
  t = done ++ map (updated target new_row) todo.
Proof.
  revert done. induction todo as [|r rest IH]; simpl; intros done H.
  - inversion H. now rewrite app_nil_r.
  - unfold updated at 1. destruct (target r).
    + destruct (with_check (new_row r)); [|discriminate].
      destruct (violates (done ++ rest) (new_row r)); [discriminate|].
      apply IH in H. now rewrite <- app_assoc in H.
    + apply IH in H. now rewrite <- app_assoc in H.
Qed.

Lemma update_rows_checked (done todo t : list row) :
  update_rows target new_row with_check violates done todo = Ok t ->
  forall r, In r todo -> target r = true -> with_check (new_row r) = true.
Proof.
  revert done. induction todo as [|x rest IH]; simpl; intros done H r Hin Ht.
  - contradiction.
  - destruct (target x) eqn:Tx.
    + destruct (with_check (new_row x)) eqn:Cx; [|discriminate].
      destruct (violates (done ++ rest) (new_row x)); [discriminate|].
      destruct Hin as [->|Hin]; [assumption | eauto].
    + destruct Hin as [->|Hin]; [congruence | eauto].
Qed.

Lemma update_rows_untargeted (done todo : list row) :
  (forall r, In r todo -> target r = false) ->
  update_rows target new_row with_check violates done todo
  = Ok (done ++ todo).
Proof.
  revert done. induction todo as [|r rest IH]; simpl; intros done H.
  - now rewrite app_nil_r.
  - rewrite (H r (or_introl eq_refl)). rewrite IH by auto.
    now rewrite <- app_assoc.
Qed.


Lemma delete_rows_untargeted (tbl : list row) :
  (forall r, In r tbl -> target r = false) -> delete_rows target tbl = tbl.
Proof.
  intros H. apply filter_all. intros r Hr. now rewrite (H r Hr).
Qed.

End RowsFacts.

(** ** Reading events *)

Lemma holds_eq_text (a b : option text) :
  Sql.holds (Sql.eq_text a b) = true <-> exists u, a = Some u /\ b = Some u.
Proof.
  destruct a as [x|], b as [y|]; simpl; split;
    try discriminate; try (intros [u [? ?]]; discriminate).
  - destruct (String.eqb x y) eqn:E; [|discriminate].
    apply String.eqb_eq in E. subst. intros _. now exists y.
  - intros [u [Hx Hy]]. inversion Hx; inversion Hy; subst.
    now rewrite String.eqb_refl.
Qed.

Lemma holds_eq_true (b : option bool) :
  Sql.holds (Sql.eq_bool b (Some true)) = true <-> b = Some true.
Proof. destruct b as [[|]|]; simpl; split; congruence. Qed.

Lemma events_select_iff (uid : option uuid) (d : db) (e : Event.t) :
  events_select uid d e = true <->
  Event.is_public e = Some true
  \/ exists u, uid = Some u /\ Event.created_by e = Some u.
Proof.
  unfold events_select, permissive,
    Public_events_are_viewable_by_everyone, Users_can_view_their_own_events.
  simpl. rewrite orb_false_r, orb_true_iff, holds_eq_true, holds_eq_text.
  reflexivity.
Qed.

Lemma write_policies_imply_select (uid : option uuid) (d : db) :
  (forall e, events_update uid d e = true -> events_select uid d e = true)
  /\ (forall e, events_delete uid d e = true -> events_select uid d e = true)
  /\ (forall r, event_registrations_update uid d r = true ->
                event_registrations_select uid d r = true)
  /\ (forall r, event_registrations_delete uid d r = true ->
                event_registrations_select uid d r = true)
  /\ (forall p, profiles_update uid d p = true ->
                profiles_select uid d p = true).
Proof.
  unfold events_update, events_delete, events_select,
    event_registrations_update, event_registrations_delete,
    event_registrations_select, profiles_update, profiles_select,
    permissive.
  repeat split; simpl; intros x H; rewrite orb_false_r in H;
    apply orb_true_iff; auto.
  - right. now rewrite orb_false_r.
  - right. now rewrite orb_false_r.
Qed.

(** C2.  A read of [events] returns a row exactly when the row is in the
    table and either its [is_public] is true or the caller is its creator;
    so a row with [is_public = false] is never returned to a caller whose
    identity differs from its [created_by]. *)
Theorem events_readable_iff_public_or_own
    (uid : option uuid) (d : db) (e : Event.t) :
  (In e (select_events uid d) <->
   In e (events d)
   /\ (Event.is_public e = Some true
       \/ exists u, uid = Some u /\ Event.created_by e = Some u))
  /\ (Event.is_public e = Some false ->
      uid <> Event.created_by e ->
      ~ In e (select_events uid d)).
Proof.
  assert (Hiff : In e (select_events uid d) <->
                 In e (events d)
                 /\ (Event.is_public e = Some true
                     \/ exists u, uid = Some u /\ Event.created_by e = Some u)).
  { unfold select_events. rewrite filter_In, events_select_iff. reflexivity. }
  split; [exact Hiff|].
  intros Hprivate Hother Hin.
  apply Hiff in Hin. destruct Hin as [_ [Hpub | [u [Hu Hc]]]]; congruence.
Qed.

Lemma events_readable_iff_public_or_own_witness :
  Event.is_public
    (Event.mk "e" "t" None 0 1 None None (Some "carol") 0 0 (Some false)
       None None) = Some false
  /\ Some "bob" <> Some "carol"
  /\ ~ In (Event.mk "e" "t" None 0 1 None None (Some "carol") 0 0 (Some false)
             None None)
          (select_events (Some "bob")
             (mkdb [] [Event.mk "e" "t" None 0 1 None None (Some "carol") 0 0
                         (Some false) None None] [] [] [])).
Proof.
  split; [reflexivity|]. split; [discriminate|].
  apply (events_readable_iff_public_or_own (Some "bob")); [reflexivity|discriminate].
Defined.

(** ** Notifications *)

Lemma insert_rows_unrestricted_error {row : Type}
    (violates : list row -> row -> option sqlstate) (new tbl : list row)
    (e : sqlstate) :
  (forall t r, violates t r <> Some rls_violation) ->
  insert_rows (fun _ => true) violates new tbl = Err e ->
  e <> rls_violation.
Proof.
  intros Hv. revert tbl. induction new as [|r rest IH]; simpl; intros tbl H.
  - discriminate.
  - destruct (violates tbl r) as [e'|] eqn:V.
    + inversion H; subst. intros ->. now apply (Hv tbl r).
    + eauto.
Qed.

Lemma event_notifications_violates_not_rls (t : list Notification.t)
    (n : Notification.t) :
  event_notifications_violates t n <> Some rls_violation.
Proof.
  unfold event_notifications_violates.
  repeat match goal with |- context [if ?c then _ else _] => destruct c end;
    discriminate.
Qed.

(** C7.  A read of [event_notifications] returns only rows whose [user_id]
    is the caller's identity.  The insert policy accepts every row from
    every caller: the answer to an insert does not depend on who calls, it
    is never a policy violation, and a row that meets the table's
    constraints is added whoever the caller and the target user are. *)
Theorem notifications_read_own_insert_unrestricted :
  (forall uid d n,
      In n (select_event_notifications uid d) ->
      uid = Some (Notification.user_id n))
  /\ (forall uid d n, event_notifications_insert uid d n = true)
  /\ (forall uid uid' rows d,
         insert_event_notifications uid rows d
         = insert_event_notifications uid' rows d)
  /\ (forall uid rows d,
         insert_event_notifications uid rows d <> Err rls_violation)
  /\ (forall uid n d,
         event_notifications_violates (event_notifications d) n = None ->
         notification_references d n = true ->
         insert_event_notifications uid [n] d
         = Ok (set_event_notifications d (event_notifications d ++ [n]))).
Proof.
  repeat split.
  - intros uid d n Hin. unfold select_event_notifications in Hin.
    apply filter_In in Hin. destruct Hin as [_ Hp].
    unfold event_notifications_select, permissive,
      Users_can_view_their_own_notifications in Hp.
    simpl in Hp. rewrite orb_false_r in Hp.
    apply holds_eq_text in Hp. destruct Hp as [u [-> Hu]]. congruence.
  - intros uid rows d. unfold insert_event_notifications.
    change (event_notifications_insert uid d) with (fun _ : Notification.t => true).
    destruct (insert_rows _ _ rows (event_notifications d)) as [ns|e] eqn:E;
      simpl.
    + destruct (forallb _ rows); simpl; discriminate.
    + intros H. inversion H; subst.
      apply insert_rows_unrestricted_error in E; [congruence|].
      apply event_notifications_violates_not_rls.
  - intros uid n d Hv Hr. unfold insert_event_notifications. simpl.
    rewrite Hv. simpl. rewrite Hr. reflexivity.
Qed.

Lemma notifications_read_own_insert_unrestricted_witness :
  insert_event_notifications None
    [Notification.mk "n1" "party" "ann" "reminder" "Soon" 900 None 50]
    Scenario.opened
  = Ok (set_event_notifications Scenario.opened
          [Notification.mk "n1" "party" "ann" "reminder" "Soon" 900 None 50]).
Proof.
  apply (proj2 (proj2 (proj2 (proj2
           notifications_read_own_insert_unrestricted)))); reflexivity.
Defined.

(** ** Deleting events *)

Lemma filter_filter_implied {A : Type} (p q : A -> bool) (l : list A) :
  (forall x, In x l -> p x = true -> q x = true) ->
  filter p (filter q l) = filter p l.
Proof.
  induction l as [|a l IH]; simpl; intros H; [reflexivity|].
  destruct (q a) eqn:Q; simpl.
  - destruct (p a); [f_equal|]; apply IH; auto.
  - destruct (p a) eqn:P.
    + rewrite (H a (or_introl eq_refl) P) in Q. discriminate.
    + apply IH. auto.
Qed.

Lemma gone_ids (deleted : Event.t -> bool) (evs : list Event.t) (x : uuid) :
  In x (map Event.id (filter deleted evs)) <->
  exists e, In e evs /\ deleted e = true /\ Event.id e = x.
Proof.
  rewrite in_map_iff. split.
  - intros [e [He Hin]]. apply filter_In in Hin. exists e. tauto.
  - intros [e [Hin [Hd He]]]. exists e. split; [assumption|].
    apply filter_In. tauto.
Qed.

(** C6.  A [DELETE] on [events] always answers.  Every event it deletes (a
    row that the statement addresses and that the caller created) is gone,
    and with it every registration and every notification that references
    it.  For any other event the registrations and the notifications are
    the very lists they were; users and profiles are untouched.  The same
    holds of the events that go when their creator is deleted from
    [auth.users]: their registrations and notifications go with them, and
    a registration of a remaining user for a remaining event stays. *)
Theorem delete_events_cascades (uid : option uuid) (w : Event.t -> bool)
    (d : db) :
  let deleted e := w e && events_delete uid d e in
  (exists d',
    delete_events uid w d = Ok d'
    /\ (forall e, In e (events d) -> deleted e = true ->
          ~ In e (events d')
          /\ (forall r, In r (event_registrations d') ->
                Registration.event_id r <> Event.id e)
          /\ (forall n, In n (event_notifications d') ->
                Notification.event_id n <> Event.id e))
    /\ (forall x,
          (forall e, In e (events d) -> deleted e = true -> Event.id e <> x) ->
          filter (fun r => String.eqb (Registration.event_id r) x)
                 (event_registrations d')
          = filter (fun r => String.eqb (Registration.event_id r) x)
                   (event_registrations d)
          /\ filter (fun n => String.eqb (Notification.event_id n) x)
                    (event_notifications d')
             = filter (fun n => String.eqb (Notification.event_id n) x)
                      (event_notifications d))
    /\ (forall e, In e (events d) -> deleted e = false -> In e (events d'))
    /\ auth_users d' = auth_users d
    /\ profiles d' = profiles d)
  /\ (forall ids, exists d',
        delete_auth_users ids d = Ok d'
        /\ (forall e u, In e (events d) -> Event.created_by e = Some u ->
              In u ids ->
              ~ In e (events d')
              /\ (forall r, In r (event_registrations d') ->
                    Registration.event_id r <> Event.id e)
              /\ (forall n, In n (event_notifications d') ->
                    Notification.event_id n <> Event.id e))
        /\ (forall r, In r (event_registrations d) ->
              ~ In (Registration.user_id r) ids ->
              (forall e u, In e (events d) -> Event.created_by e = Some u ->
                           In u ids -> Event.id e <> Registration.event_id r) ->
              In r (event_registrations d'))).
Proof.
  intros deleted. split.
  - exists (state_after d (delete_events uid w d)).
    split; [reflexivity|]. unfold delete_events, state_after; simpl.
    fold deleted.
    split; [|split; [|split; [|split; reflexivity]]].
    + intros e Hin Hd. split; [|split].
      * intros Hin'. unfold delete_rows in Hin'. apply filter_In in Hin'.
        destruct Hin' as [_ Hin']. rewrite Hd in Hin'. discriminate.
      * intros r Hr Heq. apply filter_In in Hr. destruct Hr as [_ Hr].
        apply negb_true_iff, mem_false in Hr. apply Hr. apply gone_ids. eauto.
      * intros n Hn Heq. apply filter_In in Hn. destruct Hn as [_ Hn].
        apply negb_true_iff, mem_false in Hn. apply Hn. apply gone_ids. eauto.
    + intros x Hx. split.
      * apply filter_filter_implied. intros r _ Hr. apply String.eqb_eq in Hr.
        apply negb_true_iff, mem_false. rewrite gone_ids.
        intros [e [Hin [Hd He]]]. apply (Hx e Hin Hd). congruence.
      * apply filter_filter_implied. intros n _ Hn. apply String.eqb_eq in Hn.
        apply negb_true_iff, mem_false. rewrite gone_ids.
        intros [e [Hin [Hd He]]]. apply (Hx e Hin Hd). congruence.
    + intros e Hin Hd. unfold delete_rows. apply filter_In.
      split; [assumption|]. now rewrite Hd.
  - intros ids. exists (state_after d (delete_auth_users ids d)).
    split; [reflexivity|]. unfold delete_auth_users, state_after; simpl.
    split.
    + intros e u Hin Hc Hu. apply mem_In in Hu.
      assert (Ho : match Event.created_by e with
                   | Some v => mem v ids
                   | None => false
                   end = true) by now rewrite Hc.
      split; [|split].
      * intros Hin'. apply filter_In in Hin'. destruct Hin' as [_ Hin'].
        rewrite Ho in Hin'. discriminate.
      * intros r Hr Heq. apply filter_In in Hr. destruct Hr as [_ Hr].
        apply andb_true_iff in Hr. destruct Hr as [_ Hr].
        apply negb_true_iff, mem_false in Hr. apply Hr. apply gone_ids.
        exists e. auto.
      * intros n Hn Heq. apply filter_In in Hn. destruct Hn as [_ Hn].
        apply andb_true_iff in Hn. destruct Hn as [_ Hn].
        apply negb_true_iff, mem_false in Hn. apply Hn. apply gone_ids.
        exists e. auto.
    + intros r Hin Huser Hev. apply filter_In. split; [assumption|].
      apply andb_true_iff. split; apply negb_true_iff, mem_false;
        [assumption|].
      rewrite gone_ids. intros [e [He [Ho Hid]]].
      destruct (Event.created_by e) as [u|] eqn:Hc; [|discriminate].
      apply mem_In in Ho. now apply (Hev e u He Hc Ho).
Qed.

(** ** The timestamp trigger *)

Lemma update_events_rows (uid : option uuid) (now : timestamptz)
    (w : Event.t -> bool) (a : Event.t -> Event.t) (d d' : db) :
  update_events uid now w a d = Ok d' ->
  events d'
  = map (updated (fun e => w e && events_update uid d e)
                 (fun e => update_events_updated_at now (a e)))
        (events d).
Proof.
  unfold update_events. intros H.
  destruct (update_rows _ _ _ _ [] (events d)) as [evs|] eqn:E; [|discriminate].
  simpl in H. apply update_rows_ok in E. simpl in E.
  destruct (forallb _ _); [|discriminate]. simpl in H.
  destruct (references_kept _ _); [|discriminate]. simpl in H.
  inversion H; subst. reflexivity.
Qed.

Lemma update_profiles_rows (uid : option uuid) (now : timestamptz)
    (w : Profile.t -> bool) (a : Profile.t -> Profile.t) (d d' : db) :
  update_profiles uid now w a d = Ok d' ->
  profiles d'
  = map (updated (fun p => w p && profiles_update uid d p)
                 (fun p => update_profiles_updated_at now (a p)))
        (profiles d).
Proof.
  unfold update_profiles. intros H.
  destruct (update_rows _ _ _ _ [] (profiles d)) as [ps|] eqn:E; [|discriminate].
  simpl in H. apply update_rows_ok in E. simpl in E.
  destruct (forallb _ _); [|discriminate]. simpl in H.
  inversion H; subst. reflexivity.
Qed.

(** C5, as the code has it.  An accepted [UPDATE] on [events] or on
    [profiles] leaves, in the place of every row it updates, the row that
    the assignments produce with [updated_at] overwritten by the time of
    the statement, whatever the assignments set that column to; the other
    columns are those the assignments produced.  The new [updated_at] is
    greater than the prior one when, and only when, the prior one is
    earlier than the time of the statement. *)
Theorem updated_at_overwritten_with_now :
  (forall uid now w a d d' e,
      update_events uid now w a d = Ok d' ->
      In e (events d) -> w e = true -> events_update uid d e = true ->
      In (Event.with_updated_at now (a e)) (events d')
      /\ Event.updated_at (Event.with_updated_at now (a e)) = now
      /\ (Event.updated_at e
          < Event.updated_at (Event.with_updated_at now (a e))
          <-> Event.updated_at e < now)
      /\ Event.title (Event.with_updated_at now (a e)) = Event.title (a e)
      /\ Event.start_time (Event.with_updated_at now (a e))
         = Event.start_time (a e)
      /\ Event.max_attendees (Event.with_updated_at now (a e))
         = Event.max_attendees (a e))
  /\ (forall uid now w a d d' p,
         update_profiles uid now w a d = Ok d' ->
         In p (profiles d) -> w p = true -> profiles_update uid d p = true ->
         In (Profile.with_updated_at now (a p)) (profiles d')
         /\ Profile.updated_at (Profile.with_updated_at now (a p)) = now
         /\ (Profile.updated_at p
             < Profile.updated_at (Profile.with_updated_at now (a p))
             <-> Profile.updated_at p < now)
         /\ Profile.notification_preferences
              (Profile.with_updated_at now (a p))
            = Profile.notification_preferences (a p)).
Proof.
  split.
  - intros uid now w a d d' e H Hin Hw Hp.
    apply update_events_rows in H. rewrite H.
    split; [|simpl; intuition].
    apply in_map_iff. exists e. split; [|assumption].
    unfold updated. now rewrite Hw, Hp.
  - intros uid now w a d d' p H Hin Hw Hp.
    apply update_profiles_rows in H. rewrite H.
    split; [|simpl; intuition].
    apply in_map_iff. exists p. split; [|assumption].
    unfold updated. now rewrite Hw, Hp.
Qed.

Lemma updated_at_overwritten_with_now_witness :
  In (Event.with_updated_at 77
        ((fun e => Event.with_updated_at 5 e) Scenario.party))
     (events
        (state_after Scenario.opened
           (update_events (Some "carol") 77 (fun _ => true)
              (fun e => Event.with_updated_at 5 e) Scenario.opened))).
Proof.
  apply (proj1 updated_at_overwritten_with_now (Some "carol") 77
           (fun _ => true) (fun e => Event.with_updated_at 5 e)
           Scenario.opened _ Scenario.party);
    [reflexivity | left; reflexivity | reflexivity | reflexivity].
Defined.

(** C5, as stated, fails.  Carol inserts an event at time 10 and supplies
    [updated_at = 500] herself (no trigger runs on insert); her update of the
    title at time 200 is accepted and takes [updated_at] from 500 back to
    200. *)
Lemma updated_at_can_move_back :
  exists d d',
    insert_events (Some "carol")
      [Event.mk "gala" "Gala" None 1000 2000 None None (Some "carol")
         10 500 (Some true) (Some "general") None]
      (run Scenario.signups empty_db) = Ok d
    /\ update_events (Some "carol") 200
         (fun e => String.eqb (Event.id e) "gala")
         (fun e => Event.mk (Event.id e) "Gala night" (Event.description e)
                     (Event.start_time e) (Event.end_time e)
                     (Event.location e) (Event.max_attendees e)
                     (Event.created_by e) (Event.created_at e)
                     (Event.updated_at e) (Event.is_public e)
                     (Event.event_type e) (Event.metadata e))
         d = Ok d'
    /\ map Event.updated_at (events d) = [500]
    /\ map Event.updated_at (events d') = [200]
    /\ map Event.title (events d') = ["Gala night"]
    /\ ~ (500 < 200).
Proof.
  do 2 eexists. split; [reflexivity|]. split; [reflexivity|].
  repeat split. lia.
Qed.

(** ** What the constraints keep true *)

Ltac step_ok H :=
  match type of H with
  | bind (guard ?b _) _ = Ok _ =>
      let G := fresh "G" in
      destruct b eqn:G; simpl in H; [|discriminate H]
  | bind ?r _ = Ok _ =>
      let E := fresh "E" in
      destruct r eqn:E; simpl in H; [|discriminate H]
  end.

Section Keys.
Context {row key : Type}.
Variable key_of : row -> key.
Variable with_check : row -> bool.
Variable violates : list row -> row -> option sqlstate.
Hypothesis violates_key :
  forall tbl r, violates tbl r = None -> ~ In (key_of r) (map key_of tbl).

Lemma insert_rows_keys (new tbl t : list row) :
  NoDup (map key_of tbl) ->
  insert_rows with_check violates new tbl = Ok t ->
  NoDup (map key_of t).
Proof.
  revert tbl. induction new as [|r rest IH]; simpl; intros tbl Hnd H.
  - now inversion H; subst.
  - destruct (with_check r); [|discriminate].
    destruct (violates tbl r) eqn:V; [discriminate|].
    apply (IH (tbl ++ [r])); [|assumption].
    rewrite map_app. simpl.
    apply (Permutation_NoDup (l := key_of r :: map key_of tbl)).
    + rewrite <- (app_nil_r (map key_of tbl)) at 1.
      apply Permutation_middle.
    + constructor; auto.
Qed.

Lemma insert_rows_duplicate (new tbl : list row) (r : row) :
  In r new -> In (key_of r) (map key_of tbl) ->
  exists e, insert_rows with_check violates new tbl = Err e.
Proof.
  revert tbl. induction new as [|x rest IH]; simpl; intros tbl Hin Hk.
  - contradiction.
  - destruct (with_check x); [|eauto].
    destruct (violates tbl x) eqn:V; [eauto|].
    destruct Hin as [->|Hin].
    + exfalso. eapply violates_key; eauto.
    + apply IH; [assumption|]. rewrite map_app. apply in_or_app. now left.
Qed.

Variable target : row -> bool.
Variable new_row : row -> row.

Lemma update_rows_keys (done todo t : list row) :
  NoDup (map key_of (done ++ todo)) ->
  update_rows target new_row with_check violates done todo = Ok t ->
  NoDup (map key_of t).
Proof.
  revert done. induction todo as [|r rest IH]; simpl; intros done Hnd H.
  - inversion H; subst. now rewrite app_nil_r in Hnd.
  - destruct (target r).
    + destruct (with_check (new_row r)); [|discriminate].
      destruct (violates (done ++ rest) (new_row r)) eqn:V; [discriminate|].
      apply (IH (done ++ [new_row r])); [|assumption].
      rewrite <- app_assoc. simpl.
      rewrite map_app in Hnd. simpl in Hnd. apply NoDup_remove_1 in Hnd.
      rewrite map_app. simpl.
      apply (Permutation_NoDup
               (l := key_of (new_row r) :: map key_of done ++ map key_of rest)).
      * apply Permutation_middle.
      * constructor; [|assumption].
        rewrite <- map_app. now apply violates_key.
    + apply (IH (done ++ [r])); [|assumption].
      now rewrite <- app_assoc.
Qed.

End Keys.

Lemma event_registrations_violates_key (tbl : list Registration.t)
    (r : Registration.t) :
  event_registrations_violates tbl r = None ->
  ~ In (registration_key r) (map registration_key tbl).
Proof.
  unfold event_registrations_violates.
  destruct (negb _); [discriminate|].
  destruct (mem _ _); [discriminate|].
  destruct (existsb (same_event_and_user r) tbl) eqn:E; [discriminate|].
  intros _ Hin. apply in_map_iff in Hin. destruct Hin as [x [Hk Hx]].
  assert (existsb (same_event_and_user r) tbl = true); [|congruence].
  apply existsb_exists. exists x. split; [assumption|].
  unfold registration_key in Hk. inversion Hk as [[He Hu]].
  unfold same_event_and_user. now rewrite He, Hu, !String.eqb_refl.
Qed.

Lemma has_user_ext (d d' : db) (u : uuid) :
  auth_users d' = auth_users d -> has_user d' u = has_user d u.
Proof. unfold has_user. now intros ->. Qed.

Lemma consistent_ext (d d' : db) :
  auth_users d' = auth_users d ->
  event_registrations d' = event_registrations d ->
  profiles d' = profiles d ->
  consistent d -> consistent d'.
Proof.
  intros Hu Hr Hp [Hnd Hfk]. split.
  - now rewrite Hr.
  - intros p Hin. rewrite Hp in Hin. rewrite (has_user_ext d d') by assumption.
    auto.
Qed.

Lemma consistent_empty : consistent empty_db.
Proof. split; simpl; [constructor | contradiction]. Qed.

Lemma forallb_In {A : Type} (f : A -> bool) (l : list A) (x : A) :
  forallb f l = true -> In x l -> f x = true.
Proof. rewrite forallb_forall. auto. Qed.

Lemma consistent_execute (s : statement) (d d' : db) :
  consistent d -> execute s d = Ok d' -> consistent d'.
Proof.
  intros [Hnd Hfk] H. destruct s; simpl in H.
  - (* insert into auth.users *)
    unfold insert_auth_users in H. step_ok H.
    unfold on_auth_user_created, handle_new_user in H.
    step_ok H. step_ok H. inversion H; subst; clear H.
    apply insert_rows_ok in E. destruct E as [-> _]. simpl in *.
    split; simpl; [assumption|].
    intros p Hin. apply in_app_or in Hin. destruct Hin as [Hin|[<-|[]]].
    + specialize (Hfk p Hin). unfold has_user in *. simpl.
      apply mem_In. apply mem_In in Hfk. rewrite map_app.
      apply in_or_app. now left.
    + exact G0.
  - (* delete from auth.users *)
    unfold delete_auth_users in H. inversion H; subst; clear H.
    split; simpl.
    + now apply NoDup_map_filter.
    + intros p Hin. apply filter_In in Hin. destruct Hin as [Hin Hkeep].
      specialize (Hfk p Hin). unfold has_user in *. simpl.
      apply mem_In. apply mem_In in Hfk.
      apply in_map_iff in Hfk. destruct Hfk as [u [Hid Hu]].
      apply in_map_iff. exists u. split; [assumption|].
      apply filter_In. split; [assumption|]. now rewrite Hid.
  - (* insert into events *)
    unfold insert_events in H. step_ok H. step_ok H.
    inversion H; subst. now apply (consistent_ext d).
  - (* update events *)
    unfold update_events in H. step_ok H. step_ok H. step_ok H.
    inversion H; subst. now apply (consistent_ext d).
  - (* delete from events *)
    unfold delete_events in H. inversion H; subst; clear H.
    split; simpl; [now apply NoDup_map_filter | exact Hfk].
  - (* insert into event_registrations *)
    unfold insert_event_registrations in H. step_ok H. step_ok H.
    inversion H; subst; clear H. split; simpl; [|exact Hfk].
    apply (insert_rows_keys registration_key _ _
             event_registrations_violates_key _ _ _ Hnd E).
  - (* update event_registrations *)
    unfold update_event_registrations in H. step_ok H. step_ok H.
    inversion H; subst; clear H. split; simpl; [|exact Hfk].
    apply (update_rows_keys registration_key _ _
             event_registrations_violates_key _ _ [] _ _ Hnd E).
  - (* delete from event_registrations *)
    unfold delete_event_registrations in H. inversion H; subst; clear H.
    split; simpl; [|exact Hfk]. unfold delete_rows.
    now apply NoDup_map_filter.
  - (* insert into profiles *)
    unfold insert_profiles in H. step_ok H. step_ok H.
    inversion H; subst; clear H. split; simpl; [assumption|].
    apply insert_rows_ok in E. destruct E as [-> _].
    intros p Hin. apply in_app_or in Hin. destruct Hin as [Hin|Hin].
    + now apply Hfk.
    + exact (forallb_In _ _ _ G Hin).
  - (* update profiles *)
    unfold update_profiles in H. step_ok H. step_ok H.
    inversion H; subst; clear H. split; simpl; [assumption|].
    apply update_rows_ok in E. simpl in E. subst.
    intros p Hin. apply in_map_iff in Hin. destruct Hin as [q [Hq Hin]].
    unfold updated in Hq.
    destruct (where_ q && profiles_update uid d q) eqn:T.
    + subst p.
      apply (forallb_In _ _ _ G). apply in_map_iff. exists q.
      split; [reflexivity|]. apply filter_In. now split.
    + subst p. now apply Hfk.
  - (* delete from profiles *)
    unfold delete_profiles in H. inversion H; subst; clear H.
    split; simpl; [assumption|].
    intros p Hin. apply filter_In in Hin. now apply Hfk.
  - (* insert into event_notifications *)
    unfold insert_event_notifications in H. step_ok H. step_ok H.
    inversion H; subst. now apply (consistent_ext d).
  - (* update event_notifications *)
    unfold update_event_notifications in H. step_ok H. step_ok H.
    inversion H; subst. now apply (consistent_ext d).
  - (* delete from event_notifications *)
    unfold delete_event_notifications in H. inversion H; subst.
    now apply (consistent_ext d).
Qed.

Lemma consistent_run (ss : list statement) (d : db) :
  consistent d -> consistent (run ss d).
Proof.
  revert d. induction ss as [|s rest IH]; simpl; intros d H; [assumption|].
  apply IH. destruct (execute s d) eqn:E; simpl; [|assumption].
  eapply consistent_execute; eauto.
Qed.

Lemma reachable_consistent (d : db) : reachable d -> consistent d.
Proof.
  intros [ss <-]. apply consistent_run, consistent_empty.
Qed.

(** ** Registrations are unique per event and user *)

Lemma at_most_one_with_key (l : list Registration.t) (e u : uuid) :
  NoDup (map registration_key l) ->
  (List.length
     (filter (fun r => String.eqb (Registration.event_id r) e
                       && String.eqb (Registration.user_id r) u) l)
   <= 1)%nat.
Proof.
  induction l as [|r l IH]; simpl; intros Hnd; [lia|].
  inversion Hnd as [|? ? Hnotin Hrest]; subst.
  destruct (String.eqb (Registration.event_id r) e
            && String.eqb (Registration.user_id r) u) eqn:K.
  - rewrite filter_none; [simpl; lia|].
    intros x Hx. destruct (_ && _) eqn:Kx in |- *; [|reflexivity].
    exfalso. apply Hnotin. apply in_map_iff. exists x. split; [|assumption].
    apply andb_true_iff in K, Kx. destruct K as [K1 K2], Kx as [K3 K4].
    apply String.eqb_eq in K1, K2, K3, K4. unfold registration_key.
    congruence.
  - auto.
Qed.

(** C3.  In every state of the store, no two rows of [event_registrations]
    agree on [(event_id, user_id)]: each pair has at most one row.  An
    [INSERT] that carries a row whose pair is already in the table is
    rejected and leaves the table as it was; when the row is otherwise
    acceptable (the caller's own, with a valid status) the answer is a
    unique violation. *)
Theorem one_registration_per_event_and_user (d : db) :
  reachable d ->
  NoDup (map registration_key (event_registrations d))
  /\ (forall e u,
         (List.length
            (filter (fun r => String.eqb (Registration.event_id r) e
                              && String.eqb (Registration.user_id r) u)
                    (event_registrations d))
          <= 1)%nat)
  /\ (forall uid rows r,
         In r rows ->
         In (registration_key r)
            (map registration_key (event_registrations d)) ->
         (exists e, insert_event_registrations uid rows d = Err e)
         /\ state_after d (insert_event_registrations uid rows d) = d)
  /\ (forall uid r,
         In (registration_key r)
            (map registration_key (event_registrations d)) ->
         event_registrations_insert uid d r = true ->
         Sql.check (Sql.in_list (Registration.status r)
                      ["registered"; "cancelled"; "waitlist"]) = true ->
         insert_event_registrations uid [r] d = Err unique_violation).
Proof.
  intros Hreach. apply reachable_consistent in Hreach.
  destruct Hreach as [Hnd _].
  split; [assumption|]. split; [intros; now apply at_most_one_with_key|].
  split.
  - intros uid rows r Hin Hk.
    assert (Hrej : exists e, insert_event_registrations uid rows d = Err e).
    { unfold insert_event_registrations.
      destruct (insert_rows_duplicate registration_key
                  (event_registrations_insert uid d)
                  event_registrations_violates
                  event_registrations_violates_key
                  rows (event_registrations d) r Hin Hk) as [e ->].
      now exists e. }
    split; [assumption|]. destruct Hrej as [e ->]. reflexivity.
  - intros uid r Hk Hp Hs.
    unfold insert_event_registrations. simpl. rewrite Hp.
    destruct (event_registrations_violates (event_registrations d) r) eqn:V.
    + unfold event_registrations_violates in V. rewrite Hs in V. simpl in V.
      destruct (mem _ _); [inversion V; reflexivity|].
      destruct (existsb _ _); [inversion V; reflexivity | discriminate].
    + exfalso. eapply event_registrations_violates_key; eauto.
Qed.

Lemma one_registration_per_event_and_user_witness :
  insert_event_registrations (Some "ann")
    [Registration.mk "reg-again" "party" "ann" 40 (Some "registered")]
    Scenario.after_ann
  = Err unique_violation.
Proof.
  apply (one_registration_per_event_and_user Scenario.after_ann).
  - exists (Scenario.signups
            ++ [InsertEvents (Some "carol") [Scenario.party];
                InsertEventRegistrations (Some "ann")
                  [Registration.mk "reg-ann" "party" "ann" 20
                     (Some "registered")]]).
    reflexivity.
  - left. reflexivity.
  - reflexivity.
  - reflexivity.
Defined.

(** ** Signing up creates the profile *)

Lemma no_profile_without_user (d : db) (u : uuid) :
  consistent d -> has_user d u = false ->
  mem u (map Profile.user_id (profiles d)) = false
  /\ filter (fun q => String.eqb (Profile.user_id q) u) (profiles d) = [].
Proof.
  intros [_ Hfk] Hu. split.
  - apply mem_false. intros Hin. apply in_map_iff in Hin.
    destruct Hin as [p [Hp Hin]]. specialize (Hfk p Hin). congruence.
  - apply filter_none. intros p Hin.
    destruct (String.eqb (Profile.user_id p) u) eqn:E; [|reflexivity].
    apply String.eqb_eq in E. specialize (Hfk p Hin). congruence.
Qed.

(** C4.  Creating an identity whose id is new (the generated profile id
    being new as well) succeeds, and whenever the creation succeeds the
    store holds the identity and exactly one profile whose [user_id] is
    the identity's id.  Its [email] is the identity's, and its
    [display_name] is the [display_name] of the identity's metadata when
    the metadata has one, the identity's email otherwise. *)
Theorem new_identity_has_one_profile (d : db) (gen : uuid)
    (now : timestamptz) (u : User.t) :
  reachable d ->
  (has_user d (User.id u) = false ->
   mem gen (map Profile.id (profiles d)) = false ->
   exists d', insert_auth_users gen now u d = Ok d')
  /\ (forall d',
         insert_auth_users gen now u d = Ok d' ->
         In u (auth_users d')
         /\ exists p,
              filter (fun q => String.eqb (Profile.user_id q) (User.id u))
                     (profiles d') = [p]
              /\ Profile.user_id p = User.id u
              /\ Profile.email p = User.email u
              /\ Profile.display_name p
                 = match Jsonb.get_text (User.raw_user_meta_data u)
                           "display_name" with
                   | Some name => Some name
                   | None => User.email u
                   end).
Proof.
  intros Hreach. apply reachable_consistent in Hreach. split.
  - intros Hnew Hgen.
    destruct (no_profile_without_user d (User.id u) Hreach Hnew) as [Hnone _].
    unfold insert_auth_users, on_auth_user_created, handle_new_user.
    rewrite Hnew. simpl. unfold profiles_violates. simpl.
    rewrite Hgen, Hnone. simpl.
    assert (Hu : has_user
                   (mkdb (auth_users d ++ [u]) (events d)
                      (event_registrations d) (profiles d)
                      (event_notifications d)) (User.id u) = true).
    { unfold has_user. simpl. apply mem_In. rewrite map_app.
      apply in_or_app. right. now left. }
    rewrite Hu. simpl. eauto.
  - intros d' H. unfold insert_auth_users in H. step_ok H.
    apply negb_true_iff in G.
    destruct (no_profile_without_user d (User.id u) Hreach G) as [_ Hnone].
    unfold on_auth_user_created, handle_new_user in H.
    step_ok H. step_ok H. inversion H; subst; clear H.
    apply insert_rows_ok in E. destruct E as [-> _]. simpl.
    split; [apply in_or_app; right; now left|].
    eexists. rewrite filter_app, Hnone. simpl.
    rewrite String.eqb_refl. split; [reflexivity|]. simpl.
    repeat split.
    unfold Sql.coalesce. now destruct (Jsonb.get_text _ _).
Qed.

Lemma new_identity_has_one_profile_witness :
  exists d', insert_auth_users "profile-dan" 4
               (User.mk "dan" (Some "dan@example.org") None)
               Scenario.opened = Ok d'.
Proof.
  apply (new_identity_has_one_profile Scenario.opened "profile-dan" 4
           (User.mk "dan" (Some "dan@example.org") None)).
  - exists (Scenario.signups ++ [InsertEvents (Some "carol") [Scenario.party]]).
    reflexivity.
  - reflexivity.
  - reflexivity.
Defined.

(** ** Writes that the policies do not allow *)





Lemma references_kept_same (d : db) : references_kept d d = true.
Proof.
  unfold references_kept. apply andb_true_iff.
  split; apply forallb_forall; intros x _;
    now destruct (has_event d _).
Qed.





(** ** The calendar's list *)

Lemma place_In (x y : Calendar.fetched) (l : list Calendar.fetched) :
  In y (Calendar.place x l) <-> y = x \/ In y l.
Proof.
  induction l as [|z l IH]; simpl.
  - intuition.
  - destruct (_ <=? _); simpl; [intuition|]. rewrite IH. intuition.
Qed.

Lemma order_In (y : Calendar.fetched) (l : list Calendar.fetched) :
  In y (Calendar.order l) <-> In y l.
Proof.
  induction l as [|x l IH]; simpl; [reflexivity|].
  rewrite place_In, IH. intuition.
Qed.

Lemma place_sorted (x : Calendar.fetched) (l : list Calendar.fetched) :
  StronglySorted by_start_time l ->
  StronglySorted by_start_time (Calendar.place x l).
Proof.
  induction l as [|y l IH]; simpl; intros Hs.
  - repeat constructor.
  - inversion Hs as [|? ? Hrest Hall]; subst.
    destruct (_ <=? _) eqn:C.
    + apply Z.leb_le in C. constructor; [assumption|].
      constructor; [exact C|].
      eapply Forall_impl; [|exact Hall].
      unfold by_start_time. intros; lia.
    + apply Z.leb_gt in C. constructor; [auto|].
      apply Forall_forall. intros z Hz. apply place_In in Hz.
      destruct Hz as [->|Hz]; [unfold by_start_time; lia|].
      rewrite Forall_forall in Hall. auto.
Qed.

Lemma order_sorted (l : list Calendar.fetched) :
  StronglySorted by_start_time (Calendar.order l).
Proof.
  induction l as [|x l IH]; simpl; [constructor | now apply place_sorted].
Qed.

Lemma processedEvents_sorted (l : list Calendar.fetched) :
  StronglySorted by_start_time l ->
  StronglySorted
    (fun a b => Event.start_time (Calendar.row a)
                <= Event.start_time (Calendar.row b))
    (Calendar.processedEvents l).
Proof.
  induction 1 as [|x l Hs IH Hall]; simpl; constructor; [assumption|].
  unfold Calendar.processedEvents. rewrite Forall_map. simpl.
  exact Hall.
Qed.

Lemma inner_In (uid : option uuid) (d : db) (x : Calendar.fetched) :
  In x (Calendar.inner uid d) ->
  In (Calendar.columns x) (select_events uid d).
Proof.
  unfold Calendar.inner. rewrite in_map_iff. intros [e [<- He]]. exact He.
Qed.

Lemma inner_complete (uid : option uuid) (d : db) (e : Event.t) :
  In e (select_events uid d) ->
  exists x, In x (Calendar.inner uid d) /\ Calendar.columns x = e.
Proof.
  intros He. unfold Calendar.inner. eexists. split.
  - apply in_map_iff. exists e. split; [reflexivity | exact He].
  - reflexivity.
Qed.

(** C9, as the code has it.  After any fetch the calendar's list holds
    only events that the caller can read and that start at or after the
    time of the fetch, in ascending order of [start_time]; and it holds
    every such event: the inner join on the embedded count drops none, so
    an event is listed whether or not it has a registration row.  The
    events shown for the selected date are among the listed ones. *)
Theorem calendar_lists_the_readable_upcoming_events
    (uid : option uuid) (now : timestamptz) (d : db) (st : Calendar.state) :
  let listed := Calendar.events (Calendar.fetchEvents uid now d st) in
  Forall
    (fun x =>
       now <= Event.start_time (Calendar.row x)
       /\ In (Calendar.row x) (select_events uid d))
    listed
  /\ StronglySorted
       (fun a b => Event.start_time (Calendar.row a)
                   <= Event.start_time (Calendar.row b))
       listed
  /\ (forall e,
         In e (select_events uid d) -> now <= Event.start_time e ->
         exists x, In x listed /\ Calendar.row x = e)
  /\ (forall zone x,
         In x (Calendar.eventsForSelectedDate zone
                 (Calendar.fetchEvents uid now d st)) ->
         In x listed).
Proof.
  intros listed. split; [|split; [|split]].
  - subst listed. simpl. unfold Calendar.processedEvents.
    rewrite Forall_map. simpl. apply Forall_forall. intros x Hx.
    unfold Calendar.query in Hx. apply (proj1 (order_In _ _)) in Hx.
    apply filter_In in Hx. destruct Hx as [Hx Hnow].
    apply Z.leb_le in Hnow. apply inner_In in Hx. tauto.
  - subst listed. simpl. apply processedEvents_sorted, order_sorted.
  - intros e He Hnow. destruct (inner_complete uid d e He) as [y [Hy Hc]].
    exists (Calendar.mkevent (Calendar.columns y)
              (Z.of_nat (List.length (Calendar.event_registrations y)))).
    split; [|exact Hc].
    subst listed. simpl. unfold Calendar.processedEvents.
    apply in_map_iff. exists y. split; [reflexivity|].
    unfold Calendar.query. apply order_In. apply filter_In.
    split; [assumption|]. apply Z.leb_le. now rewrite Hc.
  - intros zone x Hx. unfold Calendar.eventsForSelectedDate in Hx.
    destruct (Calendar.selectedDate _); [|contradiction].
    apply filter_In in Hx. tauto.
Qed.

Lemma calendar_lists_the_readable_upcoming_events_witness :
  exists x,
    In x (Calendar.events
            (Calendar.fetchEvents (Some "ann") 500 Scenario.opened
               (Calendar.mk None [] true)))
    /\ Calendar.row x = Scenario.party.
Proof.
  apply (proj1 (proj2 (proj2
           (calendar_lists_the_readable_upcoming_events (Some "ann") 500
              Scenario.opened (Calendar.mk None [] true))))
           Scenario.party).
  - left. reflexivity.
  - simpl. lia.
Defined.

(** C9, as stated, fails.  Carol's event has no registration row at all,
    yet Ann's calendar lists it after a fetch and shows it for the day it
    starts on: the embedded count is one object also over no row, so the
    inner join keeps the event. *)
Lemma event_without_registrations_is_listed :
  event_registrations Scenario.opened = []
  /\ map Calendar.row
       (Calendar.events
          (Calendar.fetchEvents (Some "ann") 500 Scenario.opened
             (Calendar.mk (Some 1500) [] true)))
     = [Scenario.party]
  /\ map Calendar.row
       (Calendar.eventsForSelectedDate (fun _ => 0)
          (Calendar.fetchEvents (Some "ann") 500 Scenario.opened
             (Calendar.mk (Some 1500) [] true)))
     = [Scenario.party].
Proof. repeat split. Qed.

(** ** The Register button *)

Lemma register_button_shown (p : EventDetails.props) (st : EventDetails.state)
    (ev : Event.t) (disabled : bool) :
  EventDetails.event p = Some ev ->
  In (EventDetails.RegisterButton disabled) (EventDetails.buttons p st) ->
  EventDetails.canRegister p ev st = true
  /\ EventDetails.isFull ev st = false.
Proof.
  unfold EventDetails.buttons. intros -> Hin.
  destruct (EventDetails.canRegister p ev st); simpl in Hin.
  - destruct (EventDetails.isFull ev st); simpl in Hin; [|tauto].
    exfalso.
    destruct Hin as [Hin|Hin]; [discriminate|].
    apply in_app_or in Hin. destruct Hin as [Hin|Hin].
    + destruct (EventDetails.canUnregister st); simpl in Hin;
        [destruct Hin as [Hin|[]]; discriminate | contradiction].
    + destruct (EventDetails.isEventCreator p ev); simpl in Hin;
        [destruct Hin as [Hin|[Hin|[]]]; discriminate | contradiction].
  - exfalso.
    apply in_app_or in Hin. destruct Hin as [Hin|Hin].
    + destruct (EventDetails.canUnregister st); simpl in Hin;
        [destruct Hin as [Hin|[]]; discriminate | contradiction].
    + destruct (EventDetails.isEventCreator p ev); simpl in Hin;
        [destruct Hin as [Hin|[Hin|[]]]; discriminate | contradiction].
Qed.

Lemma offers_register (p : EventDetails.props) (st : EventDetails.state) :
  EventDetails.offers (EventDetails.RegisterButton false) p st = true ->
  exists ev, EventDetails.event p = Some ev
             /\ EventDetails.canRegister p ev st = true
             /\ EventDetails.isFull ev st = false.
Proof.
  unfold EventDetails.offers. intros H. apply existsb_exists in H.
  destruct H as [b [Hin Hb]].
  destruct b as [[|]| |[|]| |[|]]; try discriminate.
  destruct (EventDetails.event p) as [ev|] eqn:Hev.
  - exists ev. split; [reflexivity|].
    now apply (register_button_shown p st ev false).
  - unfold EventDetails.buttons in Hin. rewrite Hev in Hin. contradiction.
Qed.

Lemma click_register_not_offered (uid : option uuid) (gen : uuid)
    (now : timestamptz) (d : db) (p : EventDetails.props)
    (st : EventDetails.state) (ev : Event.t) :
  EventDetails.event p = Some ev ->
  EventDetails.canRegister p ev st = false ->
  EventDetails.click_register uid gen now d p st = (d, st, None).
Proof.
  intros Hev Hcan. unfold EventDetails.click_register.
  destruct (EventDetails.offers _ p st) eqn:O; [|reflexivity].
  apply offers_register in O. destruct O as [ev' [Hev' [Hcan' _]]].
  congruence.
Qed.

Lemma is_registered_iff (r : Registration.t) :
  EventDetails.is_registered r = true
  <-> Registration.status r = Some "registered".
Proof.
  unfold EventDetails.is_registered. rewrite holds_eq_text. split.
  - intros [u [Hs Hu]]. congruence.
  - intros H. now exists "registered".
Qed.

Lemma length_filter_le {A : Type} (f g : A -> bool) (l : list A) :
  (forall x, f x = true -> g x = true) ->
  (List.length (filter f l) <= List.length (filter g l))%nat.
Proof.
  intros H. induction l as [|a l IH]; simpl; [lia|].
  destruct (f a) eqn:F.
  - rewrite (H a F). simpl. lia.
  - destruct (g a); simpl; lia.
Qed.

Lemma own_registrations_visible (me : uuid) (d : db)
    (f : Registration.t -> bool) :
  (forall r, f r = true -> Registration.user_id r = me) ->
  filter f (select_event_registrations (Some me) d)
  = filter f (event_registrations d).
Proof.
  intros H. unfold select_event_registrations.
  apply filter_filter_implied. intros r _ Hr.
  unfold event_registrations_select, permissive. simpl.
  apply orb_true_iff. left.
  unfold Users_can_view_their_own_registrations.
  apply holds_eq_text. exists me. rewrite (H r Hr). auto.
Qed.

(** C10, as the code has it.  The dialog renders the Register button only
    when its state holds no registration of the caller, the event object
    it was given has [is_public] true and the caller is not the
    [created_by] of that object.  The state holds no registration from
    the start and until a load has returned; once the dialog has loaded
    its data, its state holds no registration exactly when the store has
    no row with status [registered] for the event and the caller.  So a
    click by the creator named in the event object, or on an event object
    that is not public, finds no Register button and writes nothing; the
    store's own [is_public] is not consulted. *)
Theorem register_offered_to_unregistered_visitors_of_public_events :
  (forall p st ev disabled,
      EventDetails.event p = Some ev ->
      In (EventDetails.RegisterButton disabled) (EventDetails.buttons p st) ->
      EventDetails.registration st = None
      /\ Event.is_public ev = Some true
      /\ (forall me, EventDetails.currentUserId p = Some me ->
                     Event.created_by ev <> Some me))
  /\ (forall d me ev st,
         reachable d -> me <> "" ->
         (EventDetails.registration
            (EventDetails.useEffect (Some me) d
               (EventDetails.mkprops true (Some ev) (Some me)) st) = None
          <-> forall r, In r (event_registrations d) ->
                Registration.event_id r = Event.id ev ->
                Registration.user_id r = me ->
                Registration.status r <> Some "registered"))
  /\ (forall uid gen now d p st ev,
         EventDetails.event p = Some ev ->
         EventDetails.isEventCreator p ev = true ->
         EventDetails.click_register uid gen now d p st = (d, st, None))
  /\ (forall uid gen now d p st ev,
         EventDetails.event p = Some ev ->
         Event.is_public ev <> Some true ->
         EventDetails.click_register uid gen now d p st = (d, st, None))
  /\ EventDetails.registration EventDetails.initial = None
  /\ (forall uid d p st,
         EventDetails.isOpen p = false ->
         EventDetails.useEffect uid d p st = st).
Proof.
  split; [|split; [|split; [|split; [|split]]]].
  - intros p st ev disabled Hev Hin.
    destruct (register_button_shown p st ev disabled Hev Hin) as [Hcan _].
    unfold EventDetails.canRegister in Hcan.
    destruct (EventDetails.registration st); [discriminate|].
    apply andb_true_iff in Hcan. destruct Hcan as [Hpub Hcre].
    split; [reflexivity|]. split.
    + now destruct (Event.is_public ev) as [[|]|].
    + intros me Hme Hc. apply negb_true_iff in Hcre.
      unfold EventDetails.isEventCreator, Js.strict_eq in Hcre.
      rewrite Hme, Hc, String.eqb_refl in Hcre. discriminate.
  - intros d me ev st Hreach Hme.
    apply reachable_consistent in Hreach. destruct Hreach as [Hnd _].
    unfold EventDetails.useEffect, EventDetails.fetchRegistrationInfo. simpl.
    apply String.eqb_neq in Hme. rewrite Hme. simpl.
    rewrite own_registrations_visible.
    2:{ intros r Hr. apply andb_true_iff in Hr. destruct Hr as [Hr _].
        apply andb_true_iff in Hr. destruct Hr as [_ Hr].
        now apply String.eqb_eq in Hr. }
    set (f := fun r => String.eqb (Registration.event_id r) (Event.id ev)
                       && String.eqb (Registration.user_id r) me
                       && EventDetails.is_registered r).
    assert (Hlen : (List.length (filter f (event_registrations d)) <= 1)%nat).
    { eapply Nat.le_trans;
        [|apply (at_most_one_with_key _ (Event.id ev) me Hnd)].
      apply length_filter_le. intros x Hx. unfold f in Hx.
      apply andb_true_iff in Hx. tauto. }
    assert (Hf : forall r, f r = true <->
                   Registration.event_id r = Event.id ev
                   /\ Registration.user_id r = me
                   /\ Registration.status r = Some "registered").
    { intros r. unfold f.
      rewrite !andb_true_iff, !String.eqb_eq, is_registered_iff. tauto. }
    split.
    + intros Hnone r Hin He Hu Hs.
      assert (Hr : In r (filter f (event_registrations d))).
      { apply filter_In. split; [assumption|]. apply Hf. tauto. }
      destruct (filter f (event_registrations d)) as [|a [|b l]];
        simpl in *; [contradiction | discriminate | lia].
    + intros Hnone.
      destruct (filter f (event_registrations d)) as [|a l] eqn:F;
        [reflexivity|].
      exfalso.
      assert (Ha : In a (filter f (event_registrations d)))
        by (rewrite F; now left).
      apply filter_In in Ha. destruct Ha as [Hin Ha]. apply Hf in Ha.
      apply (Hnone a); tauto.
  - intros uid gen now d p st ev Hev Hcre.
    apply (click_register_not_offered uid gen now d p st ev Hev).
    unfold EventDetails.canRegister. rewrite Hcre.
    destruct (EventDetails.registration st); [reflexivity|].
    apply andb_false_r.
  - intros uid gen now d p st ev Hev Hpriv.
    apply (click_register_not_offered uid gen now d p st ev Hev).
    unfold EventDetails.canRegister.
    destruct (EventDetails.registration st); [reflexivity|].
    destruct (Event.is_public ev) as [[|]|]; [congruence | reflexivity..].
  - reflexivity.
  - intros uid d p st Hclosed. unfold EventDetails.useEffect.
    rewrite Hclosed, andb_false_r. now destruct (EventDetails.event p).
Qed.

Lemma register_offered_to_unregistered_visitors_of_public_events_witness :
  EventDetails.click_register (Some "carol") "reg-carol" 20 Scenario.opened
    (EventDetails.mkprops true (Some Scenario.party) (Some "carol"))
    EventDetails.initial
  = (Scenario.opened, EventDetails.initial, None).
Proof.
  apply (proj1 (proj2 (proj2
           register_offered_to_unregistered_visitors_of_public_events))
           (Some "carol") "reg-carol" 20 Scenario.opened
           (EventDetails.mkprops true (Some Scenario.party) (Some "carol"))
           EventDetails.initial Scenario.party);
    reflexivity.
Defined.

(** C10, as stated, fails twice.  Ann holds a registered row for the
    party; when her dialog opens, its state is still the initial one
    ([useState(null)]) and the Register button is rendered and enabled; her
    click reaches [handleRegister], which the store answers with the
    unique violation.  And Carol has made the party private in the store
    while Bob's calendar still holds the public event object: his dialog
    offers Register and his registration for the private event is
    accepted. *)
Lemma register_offered_before_load_and_for_hidden_event :
  map Registration.user_id (registered_for "party" Scenario.after_ann)
  = ["ann"]
  /\ EventDetails.buttons
       (EventDetails.mkprops true (Some Scenario.party) (Some "ann"))
       EventDetails.initial
     = [EventDetails.RegisterButton false]
  /\ EventDetails.click_register (Some "ann") "reg-again" 25
       Scenario.after_ann
       (EventDetails.mkprops true (Some Scenario.party) (Some "ann"))
       EventDetails.initial
     = (Scenario.after_ann, EventDetails.initial,
        Some (EventDetails.Error unique_violation))
  /\ map (fun e => (Event.id e, Event.is_public e)) (events Scenario.hidden)
     = [("party", Some false)]
  /\ snd (EventDetails.attempt_registration "bob" "reg-bob" 30
            Scenario.party Scenario.hidden)
     = Some (EventDetails.Success "Successfully registered for the event!")
  /\ map Registration.user_id
       (registered_for "party"
          (fst (fst (EventDetails.attempt_registration "bob" "reg-bob" 30
                       Scenario.party Scenario.hidden))))
     = ["bob"].
Proof. repeat split. Qed.

(** ** The capacity check *)

Lemma filter_filter_agree {A : Type} (p q r : A -> bool) (l : list A) :
  (forall x, In x l -> p x && q x = r x) ->
  filter p (filter q l) = filter r l.
Proof.
  induction l as [|a l IH]; simpl; intros H; [reflexivity|].
  pose proof (H a (or_introl eq_refl)) as Ha.
  rewrite <- Ha. destruct (q a); simpl.
  - rewrite andb_true_r. destruct (p a); [f_equal|]; apply IH; auto.
  - rewrite andb_false_r. apply IH. auto.
Qed.

(** X16.  What the dialog counts.  For a caller who created no event with the
    id of the event shown, the count read by [fetchRegistrationInfo] is the
    number of the caller's own registered rows for the event, whatever
    other rows the table holds. *)
Lemma visitor_counts_own_rows_only (d : db) (me : uuid) (ev : Event.t)
    (st : EventDetails.state) :
  me <> "" ->
  (forall e, In e (events d) -> Event.id e = Event.id ev ->
             Event.created_by e <> Some me) ->
  EventDetails.registrationCount
    (EventDetails.useEffect (Some me) d
       (EventDetails.mkprops true (Some ev) (Some me)) st)
  = Z.of_nat
      (List.length
         (filter (fun r => String.eqb (Registration.event_id r) (Event.id ev)
                           && String.eqb (Registration.user_id r) me
                           && EventDetails.is_registered r)
                 (event_registrations d))).
Proof.
  intros Hme Hnot.
  unfold EventDetails.useEffect, EventDetails.fetchRegistrationInfo. simpl.
  apply String.eqb_neq in Hme. rewrite Hme. simpl.
  unfold select_event_registrations. do 2 f_equal.
  apply filter_filter_agree. intros r _.
  destruct (String.eqb (Registration.event_id r) (Event.id ev)) eqn:He;
    [|reflexivity].
  apply String.eqb_eq in He. simpl.
  unfold event_registrations_select, permissive. simpl.
  rewrite orb_false_r.
  assert (Hcre : Event_creators_can_view_all_registrations_for_their_events
                   (Some me) d r = false).
  { unfold Event_creators_can_view_all_registrations_for_their_events.
    destruct (existsb _ _) eqn:X; [|reflexivity].
    apply existsb_exists in X. destruct X as [e [Hin Hx]].
    apply andb_true_iff in Hx. destruct Hx as [Hid Hc].
    apply holds_eq_text in Hid, Hc.
    destruct Hid as [i [Hi1 Hi2]], Hc as [c [Hc1 Hc2]].
    unfold select_events in Hin. apply filter_In in Hin.
    exfalso. apply (Hnot e); [tauto | congruence | congruence]. }
  rewrite Hcre, orb_false_r.
  unfold Users_can_view_their_own_registrations. simpl.
  rewrite (String.eqb_sym me).
  destruct (String.eqb (Registration.user_id r) me),
    (EventDetails.is_registered r); reflexivity.
Qed.

(** C1 fails on the code.  Carol's event has [max_attendees = 1].  Ann opens
    the dialog, sees the Register button and registers.  Then Bob opens the
    dialog: the count that [fetchRegistrationInfo] reads goes through the
    select policies of [event_registrations], which show Bob his own rows
    only, so the dialog counts 0 registrations while the table holds one,
    [isFull] is false, the Register button is there, and Bob's insert is
    accepted.  The event ends with two rows of status [registered]. *)
Theorem seats_overbooked_by_two_visitors_in_turn :
  Event.max_attendees Scenario.party = Some 1
  /\ List.length (registered_for "party" Scenario.opened) = 0%nat
  /\ List.length (registered_for "party" Scenario.after_ann) = 1%nat
  /\ EventDetails.registrationCount
       (EventDetails.useEffect (Some "bob") Scenario.after_ann
          (EventDetails.mkprops true (Some Scenario.party) (Some "bob"))
          EventDetails.initial) = 0
  /\ EventDetails.isFull Scenario.party
       (EventDetails.useEffect (Some "bob") Scenario.after_ann
          (EventDetails.mkprops true (Some Scenario.party) (Some "bob"))
          EventDetails.initial) = false
  /\ EventDetails.buttons
       (EventDetails.mkprops true (Some Scenario.party) (Some "bob"))
       (EventDetails.useEffect (Some "bob") Scenario.after_ann
          (EventDetails.mkprops true (Some Scenario.party) (Some "bob"))
          EventDetails.initial)
     = [EventDetails.RegisterButton false]
  /\ snd (EventDetails.attempt_registration "bob" "reg-bob" 30
            Scenario.party Scenario.after_ann)
     = Some (EventDetails.Success "Successfully registered for the event!")
  /\ map Registration.user_id (registered_for "party" Scenario.after_bob)
     = ["ann"; "bob"]
  /\ List.length (registered_for "party" Scenario.after_bob) = 2%nat.
Proof. repeat split. Qed.

(** * Further properties of the store *)

Ltac run_ok H := repeat step_ok H; inversion H; subst; clear H.

Lemma not_own_iff (uid a : option uuid) :
  Sql.holds (Sql.eq_text uid a) = false <->
  (forall me, uid = Some me -> a <> Some me).
Proof.
  split.
  - intros Hf me Hu Ha.
    assert (Sql.holds (Sql.eq_text uid a) = true); [|congruence].
    apply holds_eq_text. eauto.
  - intros H. destruct (Sql.holds (Sql.eq_text uid a)) eqn:E; [|reflexivity].
    apply holds_eq_text in E. destruct E as [u [Hu Ha]].
    exfalso. exact (H u Hu Ha).
Qed.

(** ** Reading registrations *)

(** X1.  A read of [event_registrations] returns a row exactly when the caller
    is the row's user or created the row's event. *)
Theorem registrations_readable_by_user_or_event_creator
    (uid : option uuid) (d : db) (r : Registration.t) :
  In r (select_event_registrations uid d) <->
  In r (event_registrations d)
  /\ exists me,
       uid = Some me
       /\ (Registration.user_id r = me
           \/ exists e, In e (events d)
                        /\ Event.id e = Registration.event_id r
                        /\ Event.created_by e = Some me).
Proof.
  unfold select_event_registrations. rewrite filter_In.
  apply and_iff_compat_l.
  unfold event_registrations_select, permissive. simpl.
  rewrite orb_false_r, orb_true_iff.
  unfold Users_can_view_their_own_registrations,
    Event_creators_can_view_all_registrations_for_their_events.
  rewrite holds_eq_text, existsb_exists. split.
  - intros [[u [Hu Hr]] | [e [Hin He]]].
    + exists u. split; [assumption|]. left. congruence.
    + apply andb_true_iff in He. destruct He as [Hid Hc].
      apply holds_eq_text in Hid, Hc.
      destruct Hid as [i [Hi1 Hi2]], Hc as [c [Hc1 Hc2]].
      exists c. split; [assumption|]. right. exists e.
      unfold select_events in Hin. apply filter_In in Hin.
      repeat split; [tauto | congruence | assumption].
  - intros [me [Hu [Hown | [e [Hin [Hid Hc]]]]]].
    + left. exists me. split; [assumption | now rewrite Hown].
    + right. exists e. split.
      * unfold select_events. apply filter_In. split; [assumption|].
        apply events_select_iff. right. eauto.
      * apply andb_true_iff. split; apply holds_eq_text.
        -- exists (Event.id e). split; [reflexivity | now rewrite Hid].
        -- exists me. split; assumption.
Qed.

(** ** Which tables a statement leaves alone *)

Lemma execute_frame (s : statement) (d d' : db) :
  execute s d = Ok d' ->
  match s with
  | InsertAuthUsers _ _ _ =>
      events d' = events d
      /\ event_registrations d' = event_registrations d
      /\ event_notifications d' = event_notifications d
  | DeleteAuthUsers _ => True
  | InsertEvents _ _ | UpdateEvents _ _ _ _ =>
      auth_users d' = auth_users d
      /\ event_registrations d' = event_registrations d
      /\ profiles d' = profiles d
      /\ event_notifications d' = event_notifications d
  | DeleteEvents _ _ =>
      auth_users d' = auth_users d /\ profiles d' = profiles d
  | InsertEventRegistrations _ _ | UpdateEventRegistrations _ _ _
  | DeleteEventRegistrations _ _ =>
      auth_users d' = auth_users d
      /\ events d' = events d
      /\ profiles d' = profiles d
      /\ event_notifications d' = event_notifications d
  | InsertProfiles _ _ | UpdateProfiles _ _ _ _ | DeleteProfiles _ _ =>
      auth_users d' = auth_users d
      /\ events d' = events d
      /\ event_registrations d' = event_registrations d
      /\ event_notifications d' = event_notifications d
  | InsertEventNotifications _ _ | UpdateEventNotifications _ _ _
  | DeleteEventNotifications _ _ =>
      auth_users d' = auth_users d
      /\ events d' = events d
      /\ event_registrations d' = event_registrations d
      /\ profiles d' = profiles d
  end.
Proof.
  intros H. destruct s; simpl in H.
  - unfold insert_auth_users, on_auth_user_created, handle_new_user in H.
    run_ok H. auto.
  - exact I.
  - unfold insert_events in H. run_ok H. auto.
  - unfold update_events in H. run_ok H. auto.
  - unfold delete_events in H. inversion H; subst. auto.
  - unfold insert_event_registrations in H. run_ok H. auto.
  - unfold update_event_registrations in H. run_ok H. auto.
  - unfold delete_event_registrations in H. inversion H; subst. auto.
  - unfold insert_profiles in H. run_ok H. auto.
  - unfold update_profiles in H. run_ok H. auto.
  - unfold delete_profiles in H. inversion H; subst. auto.
  - unfold insert_event_notifications in H. run_ok H. auto.
  - unfold update_event_notifications in H. run_ok H. auto.
  - unfold delete_event_notifications in H. inversion H; subst. auto.
Qed.

Lemma updated_untargeted_In {row : Type} (target : row -> bool)
    (new_row : row -> row) (tbl : list row) (r : row) :
  In r tbl -> target r = false -> In r (map (updated target new_row) tbl).
Proof.
  intros Hin Ht. apply in_map_iff. exists r. split; [|assumption].
  unfold updated. now rewrite Ht.
Qed.

(** ** Nobody tampers with another user's event *)

(** X2.  Whatever statement a caller issues, an event that the caller did not
    create is still in the table afterwards, unchanged. *)
Theorem events_of_others_are_untouched (s : statement)
    (uid : option uuid) (d : db) (e : Event.t) :
  issued_by s = Some uid ->
  In e (events d) ->
  (forall me, uid = Some me -> Event.created_by e <> Some me) ->
  In e (events (state_after d (execute s d))).
Proof.
  intros Hby Hin Hnot. apply not_own_iff in Hnot.
  destruct (execute s d) as [d'|] eqn:H; simpl; [|assumption].
  pose proof (execute_frame s d d' H) as F.
  destruct s; simpl in Hby; inversion Hby; subst; simpl in H;
    try (destruct F as [? [F ?]]; rewrite F; assumption).
  - unfold insert_events in H. run_ok H.
    apply insert_rows_ok in E. destruct E as [-> _]. simpl.
    apply in_or_app. now left.
  - unfold update_events in H. run_ok H.
    apply update_rows_ok in E. simpl in E. subst. simpl.
    apply updated_untargeted_In; [assumption|].
    apply andb_false_iff. right.
    unfold events_update, permissive, Users_can_update_their_own_events.
    simpl. now rewrite Hnot.
  - unfold delete_events in H. inversion H; subst. simpl.
    unfold delete_rows. apply filter_In. split; [assumption|].
    apply negb_true_iff, andb_false_iff. right.
    unfold events_delete, permissive, Users_can_delete_their_own_events.
    simpl. now rewrite Hnot.
Qed.

Lemma events_of_others_are_untouched_witness :
  In Scenario.party
     (events
        (state_after Scenario.opened
           (execute
              (UpdateEvents (Some "bob") 50 (fun _ => true)
                 (fun e => Event.with_updated_at 0 e))
              Scenario.opened))).
Proof.
  apply (events_of_others_are_untouched
           (UpdateEvents (Some "bob") 50 (fun _ => true)
              (fun e => Event.with_updated_at 0 e))
           (Some "bob") Scenario.opened Scenario.party).
  - reflexivity.
  - left. reflexivity.
  - intros me Hme. inversion Hme; subst. discriminate.
Defined.

(** ** Registrations belong to their user *)

Lemma own_registration_policy (uid : option uuid) (r : Registration.t) :
  Sql.holds (Sql.eq_text uid (Some (Registration.user_id r))) = true <->
  uid = Some (Registration.user_id r).
Proof.
  rewrite holds_eq_text. split.
  - intros [u [-> Hu]]. now inversion Hu.
  - intros ->. eauto.
Qed.

(** X4.  Whatever statement a caller issues, a registration of another user is
    still in the table afterwards, unchanged, unless the caller created an
    event with the id the row references (and deleted it); and every row
    that is in the table afterwards without having been there before
    carries the caller's own [user_id]. *)
Theorem registrations_change_only_by_their_user (s : statement)
    (uid : option uuid) (d : db) :
  issued_by s = Some uid ->
  (forall r,
      In r (event_registrations d) ->
      uid <> Some (Registration.user_id r) ->
      In r (event_registrations (state_after d (execute s d)))
      \/ exists e, In e (events d)
                   /\ Event.id e = Registration.event_id r
                   /\ Event.created_by e = uid)
  /\ (forall r,
         In r (event_registrations (state_after d (execute s d))) ->
         In r (event_registrations d)
         \/ uid = Some (Registration.user_id r)).
Proof.
  intros Hby.
  destruct (execute s d) as [d'|] eqn:H; simpl; [|split; auto].
  pose proof (execute_frame s d d' H) as F.
  destruct s; simpl in Hby; inversion Hby; subst; simpl in H.
  - destruct F as [_ [F _]]. rewrite F. auto.
  - destruct F as [_ [F _]]. rewrite F. auto.
  - (* delete from events *)
    unfold delete_events in H. inversion H; subst; clear H. simpl. split.
    + intros r Hin _.
      destruct (mem (Registration.event_id r)
                  (map Event.id
                     (filter (fun e => where_ e && events_delete uid d e)
                        (events d)))) eqn:M.
      * right. apply mem_In, gone_ids in M.
        destruct M as [e [He [Ht Hid]]]. exists e.
        apply andb_true_iff in Ht. destruct Ht as [_ Ht].
        unfold events_delete, permissive,
          Users_can_delete_their_own_events in Ht. simpl in Ht.
        rewrite orb_false_r in Ht. apply holds_eq_text in Ht.
        destruct Ht as [u [-> Hu]]. auto.
      * left. apply filter_In. split; [assumption|]. now rewrite M.
    + intros r Hin. apply filter_In in Hin. tauto.
  - (* insert *)
    unfold insert_event_registrations in H. run_ok H.
    apply insert_rows_ok in E. destruct E as [-> Hp]. simpl. split.
    + intros r Hin _. left. apply in_or_app. now left.
    + intros r Hin. apply in_app_or in Hin. destruct Hin as [Hin|Hin];
        [now left|right].
      pose proof (forallb_In _ _ _ Hp Hin) as Hr.
      unfold event_registrations_insert, permissive,
        Users_can_register_for_events in Hr. simpl in Hr.
      rewrite orb_false_r in Hr. now apply own_registration_policy.
  - (* update *)
    unfold update_event_registrations in H. run_ok H.
    pose proof (update_rows_checked _ _ _ _ _ _ _ E) as Hc.
    apply update_rows_ok in E. simpl in E. subst. simpl. split.
    + intros r Hin Hnot. left. apply updated_untargeted_In; [assumption|].
      apply andb_false_iff. right.
      unfold event_registrations_update, permissive,
        Users_can_cancel_their_own_registrations. simpl.
      rewrite orb_false_r.
      destruct (Sql.holds _) eqn:X; [|reflexivity].
      apply own_registration_policy in X. contradiction.
    + intros r Hin. apply in_map_iff in Hin. destruct Hin as [q [Hq Hin]].
      unfold updated in Hq.
      destruct (where_ q && event_registrations_update uid d q) eqn:T.
      * right. specialize (Hc q Hin T). subst r.
        unfold event_registrations_update, permissive,
          Users_can_cancel_their_own_registrations in Hc. simpl in Hc.
        rewrite orb_false_r in Hc. now apply own_registration_policy.
      * left. now subst.
  - (* delete *)
    unfold delete_event_registrations in H. inversion H; subst; clear H.
    simpl. split.
    + intros r Hin Hnot. left. unfold delete_rows. apply filter_In.
      split; [assumption|]. apply negb_true_iff, andb_false_iff. right.
      unfold event_registrations_delete, permissive,
        Users_can_delete_their_own_registrations. simpl.
      rewrite orb_false_r.
      destruct (Sql.holds _) eqn:X; [|reflexivity].
      apply own_registration_policy in X. contradiction.
    + intros r Hin. apply filter_In in Hin. tauto.
  - destruct F as [_ [_ [F _]]]. rewrite F. auto.
  - destruct F as [_ [_ [F _]]]. rewrite F. auto.
  - destruct F as [_ [_ [F _]]]. rewrite F. auto.
  - destruct F as [_ [_ [F _]]]. rewrite F. auto.
  - destruct F as [_ [_ [F _]]]. rewrite F. auto.
  - destruct F as [_ [_ [F _]]]. rewrite F. auto.
Qed.

Lemma registrations_change_only_by_their_user_witness :
  In (Registration.mk "reg-ann" "party" "ann" 20 (Some "registered"))
     (event_registrations
        (state_after Scenario.after_ann
           (execute (DeleteEventRegistrations (Some "bob") (fun _ => true))
              Scenario.after_ann)))
  \/ exists e, In e (events Scenario.after_ann)
               /\ Event.id e = "party"
               /\ Event.created_by e = Some "bob".
Proof.
  apply (proj1 (registrations_change_only_by_their_user
                  (DeleteEventRegistrations (Some "bob") (fun _ => true))
                  (Some "bob") Scenario.after_ann eq_refl)
           (Registration.mk "reg-ann" "party" "ann" 20 (Some "registered"))).
  - left. reflexivity.
  - discriminate.
Defined.

(** ** Statements that reach no row *)

Lemma untargeted_ok (s : statement) (d : db) :
  match s with
  | UpdateEvents uid _ w _ =>
      forall e, In e (events d) -> w e && events_update uid d e = false
  | DeleteEvents uid w =>
      forall e, In e (events d) -> w e && events_delete uid d e = false
  | UpdateEventRegistrations uid w _ =>
      forall r, In r (event_registrations d) ->
                w r && event_registrations_update uid d r = false
  | DeleteEventRegistrations uid w =>
      forall r, In r (event_registrations d) ->
                w r && event_registrations_delete uid d r = false
  | UpdateProfiles uid _ w _ =>
      forall p, In p (profiles d) -> w p && profiles_update uid d p = false
  | DeleteProfiles uid w =>
      forall p, In p (profiles d) -> w p && profiles_delete uid d p = false
  | UpdateEventNotifications uid w _ =>
      forall n, In n (event_notifications d) ->
                w n && event_notifications_update uid d n = false
  | DeleteEventNotifications uid w =>
      forall n, In n (event_notifications d) ->
                w n && event_notifications_delete uid d n = false
  | _ => False
  end ->
  execute s d = Ok d.
Proof.
  destruct d as [us evs regs ps ns].
  destruct s; unfold execute; try contradiction; intros Hnone;
    cbn [auth_users events event_registrations profiles event_notifications]
      in Hnone.
  - unfold update_events. cbn [events].
    rewrite update_rows_untargeted by exact Hnone.
    rewrite filter_none by exact Hnone. simpl.
    change (set_events (mkdb us evs regs ps ns) evs)
      with (mkdb us evs regs ps ns).
    now rewrite references_kept_same.
  - unfold delete_events.
    cbn [auth_users events event_registrations profiles event_notifications].
    assert (Hgone : filter (fun e => where_ e
                                     && events_delete uid
                                          (mkdb us evs regs ps ns) e) evs
                    = []) by (apply filter_none; exact Hnone).
    f_equal. f_equal.
    + apply delete_rows_untargeted; exact Hnone.
    + apply filter_all. intros r _. now rewrite Hgone.
    + apply filter_all. intros n _. now rewrite Hgone.
  - unfold update_event_registrations. cbn [event_registrations].
    rewrite update_rows_untargeted by exact Hnone.
    rewrite filter_none by exact Hnone. reflexivity.
  - unfold delete_event_registrations. cbn [event_registrations].
    now rewrite delete_rows_untargeted by exact Hnone.
  - unfold update_profiles. cbn [profiles].
    rewrite update_rows_untargeted by exact Hnone.
    rewrite filter_none by exact Hnone. reflexivity.
  - unfold delete_profiles. cbn [profiles].
    now rewrite delete_rows_untargeted by exact Hnone.
  - unfold update_event_notifications. cbn [event_notifications].
    rewrite update_rows_untargeted by exact Hnone.
    rewrite filter_none by exact Hnone. reflexivity.
  - unfold delete_event_notifications. cbn [event_notifications].
    now rewrite delete_rows_untargeted by exact Hnone.
Qed.

Lemma set_same (d : db) :
  set_events d (events d) = d
  /\ set_event_registrations d (event_registrations d) = d
  /\ set_profiles d (profiles d) = d
  /\ set_event_notifications d (event_notifications d) = d.
Proof. destruct d. repeat split. Qed.

(** ** Unauthenticated requests *)

(** X7.  A request without a session reads the public events and nothing else:
    no registration, no profile, no notification.  Apart from inserting
    notifications, no statement it issues ever changes the store. *)
Theorem anonymous_requests_read_public_events_and_write_nothing (d : db) :
  (forall e, In e (select_events None d) <->
             In e (events d) /\ Event.is_public e = Some true)
  /\ select_event_registrations None d = []
  /\ select_profiles None d = []
  /\ select_event_notifications None d = []
  /\ (forall s,
         issued_by s = Some None ->
         (forall rows, s <> InsertEventNotifications None rows) ->
         state_after d (execute s d) = d).
Proof.
  split; [|split; [|split; [|split]]].
  - intros e. unfold select_events. rewrite filter_In, events_select_iff.
    split; [|tauto]. intros [Hin [H|[u [Hu _]]]]; [tauto | discriminate].
  - apply filter_none. intros r _.
    unfold event_registrations_select, permissive. simpl.
    rewrite orb_false_r.
    unfold Event_creators_can_view_all_registrations_for_their_events.
    destruct (existsb _ _) eqn:X; [|reflexivity].
    apply existsb_exists in X. destruct X as [e [_ X]].
    apply andb_true_iff in X. destruct X as [_ X].
    now destruct (Event.created_by e).
  - apply filter_none. reflexivity.
  - apply filter_none. reflexivity.
  - intros s Hby Hnot.
    destruct s; simpl in Hby; inversion Hby; subst.
    + cbn [execute]. unfold insert_events. destruct rows as [|r rest]; simpl;
        [now rewrite (proj1 (set_same d)) | reflexivity].
    + rewrite (untargeted_ok (UpdateEvents None now where_ assign) d);
        [reflexivity|]. intros e _. apply andb_false_r.
    + rewrite (untargeted_ok (DeleteEvents None where_) d);
        [reflexivity|]. intros e _. apply andb_false_r.
    + cbn [execute]. unfold insert_event_registrations. destruct rows as [|r rest]; simpl;
        [now rewrite (proj1 (proj2 (set_same d))) | reflexivity].
    + rewrite (untargeted_ok (UpdateEventRegistrations None where_ assign) d);
        [reflexivity|]. intros e _. apply andb_false_r.
    + rewrite (untargeted_ok (DeleteEventRegistrations None where_) d);
        [reflexivity|]. intros e _. apply andb_false_r.
    + cbn [execute]. unfold insert_profiles. destruct rows as [|r rest]; simpl;
        [now rewrite (proj1 (proj2 (proj2 (set_same d)))) | reflexivity].
    + rewrite (untargeted_ok (UpdateProfiles None now where_ assign) d);
        [reflexivity|]. intros e _. apply andb_false_r.
    + rewrite (untargeted_ok (DeleteProfiles None where_) d);
        [reflexivity|]. intros e _. apply andb_false_r.
    + exfalso. now apply (Hnot rows).
    + rewrite (untargeted_ok (UpdateEventNotifications None where_ assign) d);
        [reflexivity|]. intros e _. apply andb_false_r.
    + rewrite (untargeted_ok (DeleteEventNotifications None where_) d);
        [reflexivity|]. intros e _. apply andb_false_r.
Qed.

(** ** Profiles belong to their user *)

Lemma own_profile_policy (uid : option uuid) (p : Profile.t) :
  Sql.holds (Sql.eq_text uid (Some (Profile.user_id p))) = true <->
  uid = Some (Profile.user_id p).
Proof.
  rewrite holds_eq_text. split.
  - intros [u [-> Hu]]. now inversion Hu.
  - intros ->. eauto.
Qed.

Lemma profiles_update_own (uid : option uuid) (d : db) (p : Profile.t) :
  profiles_update uid d p = true <-> uid = Some (Profile.user_id p).
Proof.
  unfold profiles_update, permissive, Users_can_update_their_own_profile.
  simpl. rewrite orb_false_r. apply own_profile_policy.
Qed.

(** X5.  A caller reads no profile but their own.  Whatever statement a caller
    issues, the profile of another user is still in the table afterwards,
    unchanged; a profile that is new or changed carries the caller's own
    [user_id]; and no profile loses its owner or disappears: every
    [user_id] that had a profile still has one (there is no delete policy,
    and an update cannot hand a profile to somebody else). *)
Theorem profiles_are_private_and_stay (s : statement) (uid : option uuid)
    (d : db) :
  issued_by s = Some uid ->
  (forall p, In p (select_profiles uid d) -> uid = Some (Profile.user_id p))
  /\ (forall p, In p (profiles d) -> uid <> Some (Profile.user_id p) ->
                In p (profiles (state_after d (execute s d))))
  /\ (forall p, In p (profiles (state_after d (execute s d))) ->
                In p (profiles d) \/ uid = Some (Profile.user_id p))
  /\ (forall p, In p (profiles d) ->
                exists p', In p' (profiles (state_after d (execute s d)))
                           /\ Profile.user_id p' = Profile.user_id p).
Proof.
  intros Hby. split.
  { intros p Hin. unfold select_profiles in Hin. apply filter_In in Hin.
    destruct Hin as [_ Hp].
    unfold profiles_select, permissive, Users_can_view_their_own_profile
      in Hp. simpl in Hp. rewrite orb_false_r in Hp.
    now apply own_profile_policy. }
  destruct (execute s d) as [d'|] eqn:H; simpl; [|repeat split; eauto].
  pose proof (execute_frame s d d' H) as F.
  destruct s; simpl in Hby; inversion Hby; subst; simpl in H;
    try (assert (Fp : profiles d' = profiles d) by tauto;
         rewrite Fp; repeat split; eauto).
  - (* insert *)
    unfold insert_profiles in H. run_ok H.
    apply insert_rows_ok in E. destruct E as [-> Hp]. simpl.
    split; [|split].
    + intros p Hin _. apply in_or_app. now left.
    + intros p Hin. apply in_app_or in Hin. destruct Hin as [Hin|Hin];
        [now left|right].
      pose proof (forallb_In _ _ _ Hp Hin) as Hr.
      unfold profiles_insert, permissive,
        Users_can_create_their_own_profile in Hr. simpl in Hr.
      rewrite orb_false_r in Hr. now apply own_profile_policy.
    + intros p Hin. exists p. split; [|reflexivity].
      apply in_or_app. now left.
  - (* update *)
    unfold update_profiles in H. run_ok H.
    pose proof (update_rows_checked _ _ _ _ _ _ _ E) as Hc.
    apply update_rows_ok in E. simpl in E. subst. simpl.
    split; [|split].
    + intros p Hin Hnot. apply updated_untargeted_In; [assumption|].
      apply andb_false_iff. right.
      destruct (profiles_update uid d p) eqn:X; [|reflexivity].
      apply profiles_update_own in X. contradiction.
    + intros p Hin. apply in_map_iff in Hin. destruct Hin as [q [Hq Hin]].
      unfold updated in Hq.
      destruct (where_ q && profiles_update uid d q) eqn:T.
      * right. specialize (Hc q Hin T). subst p.
        now apply profiles_update_own in Hc.
      * left. now subst.
    + intros p Hin.
      exists (updated (fun p => where_ p && profiles_update uid d p)
                (fun p => update_profiles_updated_at now (assign p)) p).
      split; [now apply in_map|].
      unfold updated.
      destruct (where_ p && profiles_update uid d p) eqn:T; [|reflexivity].
      specialize (Hc p Hin T). apply profiles_update_own in Hc.
      apply andb_true_iff in T. destruct T as [_ T].
      apply profiles_update_own in T. congruence.
  - (* delete *)
    unfold delete_profiles in H. inversion H; subst; clear H. simpl.
    assert (Hsame : delete_rows
                      (fun p => where_ p && profiles_delete uid d p)
                      (profiles d) = profiles d).
    { apply delete_rows_untargeted. intros p _. apply andb_false_r. }
    rewrite Hsame. repeat split; eauto.
Qed.

Lemma profiles_are_private_and_stay_witness :
  exists p',
    In p' (profiles
             (state_after Scenario.opened
                (execute (DeleteProfiles (Some "ann") (fun _ => true))
                   Scenario.opened)))
    /\ Profile.user_id p' = "ann".
Proof.
  apply (proj2 (proj2 (proj2
           (profiles_are_private_and_stay
              (DeleteProfiles (Some "ann") (fun _ => true))
              (Some "ann") Scenario.opened eq_refl)))
           (Profile.mk "profile-ann" "ann" (Some "Ann")
              (Some "ann@example.org") None
              (Some Profile.default_notification_preferences) 2 2)).
  right. left. reflexivity.
Defined.

(** ** Notifications cannot be edited *)

(** X6.  Whatever statement a caller issues, a notification is still in the
    table afterwards, unchanged, unless the caller created an event with
    the id the notification references (and deleted it): the table has no
    update and no delete policy. *)
Theorem notifications_go_only_with_their_event (s : statement)
    (uid : option uuid) (d : db) (n : Notification.t) :
  issued_by s = Some uid ->
  In n (event_notifications d) ->
  In n (event_notifications (state_after d (execute s d)))
  \/ exists e, In e (events d)
               /\ Event.id e = Notification.event_id n
               /\ Event.created_by e = uid.
Proof.
  intros Hby Hin.
  destruct (execute s d) as [d'|] eqn:H; simpl; [|now left].
  pose proof (execute_frame s d d' H) as F.
  destruct s; simpl in Hby; inversion Hby; subst; simpl in H;
    try (assert (Fn : event_notifications d' = event_notifications d)
           by tauto;
         rewrite Fn; now left).
  - (* delete from events *)
    unfold delete_events in H. inversion H; subst; clear H. simpl.
    destruct (mem (Notification.event_id n)
                (map Event.id
                   (filter (fun e => where_ e && events_delete uid d e)
                      (events d)))) eqn:M.
    + right. apply mem_In, gone_ids in M.
      destruct M as [e [He [Ht Hid]]]. exists e.
      apply andb_true_iff in Ht. destruct Ht as [_ Ht].
      unfold events_delete, permissive,
        Users_can_delete_their_own_events in Ht. simpl in Ht.
      rewrite orb_false_r in Ht. apply holds_eq_text in Ht.
      destruct Ht as [u [-> Hu]]. auto.
    + left. apply filter_In. split; [assumption|]. now rewrite M.
  - (* insert *)
    unfold insert_event_notifications in H. run_ok H.
    apply insert_rows_ok in E. destruct E as [-> _]. simpl.
    left. apply in_or_app. now left.
  - (* update *)
    unfold update_event_notifications in H. run_ok H.
    apply update_rows_ok in E. simpl in E. subst. simpl.
    left. apply updated_untargeted_In; [assumption|]. apply andb_false_r.
  - (* delete *)
    unfold delete_event_notifications in H. inversion H; subst; clear H.
    simpl. left. unfold delete_rows. apply filter_In.
    split; [assumption|]. apply negb_true_iff, andb_false_r.
Qed.

Lemma notifications_go_only_with_their_event_witness :
  In (Notification.mk "n1" "party" "ann" "reminder" "Soon" 900 None 50)
     (event_notifications
        (state_after
           (set_event_notifications Scenario.opened
              [Notification.mk "n1" "party" "ann" "reminder" "Soon" 900
                 None 50])
           (execute (DeleteEventNotifications (Some "ann") (fun _ => true))
              (set_event_notifications Scenario.opened
                 [Notification.mk "n1" "party" "ann" "reminder" "Soon" 900
                    None 50]))))
  \/ exists e,
       In e (events
               (set_event_notifications Scenario.opened
                  [Notification.mk "n1" "party" "ann" "reminder" "Soon" 900
                     None 50]))
       /\ Event.id e = "party"
       /\ Event.created_by e = Some "ann".
Proof.
  apply (notifications_go_only_with_their_event
           (DeleteEventNotifications (Some "ann") (fun _ => true))
           (Some "ann")
           (set_event_notifications Scenario.opened
              [Notification.mk "n1" "party" "ann" "reminder" "Soon" 900
                 None 50])
           (Notification.mk "n1" "party" "ann" "reminder" "Soon" 900
              None 50)).
  - reflexivity.
  - left. reflexivity.
Defined.

(** ** Keys *)

Lemma NoDup_snoc {A : Type} (l : list A) (x : A) :
  NoDup l -> ~ In x l -> NoDup (l ++ [x]).
Proof.
  intros Hnd Hx.
  apply (Permutation_NoDup (l := x :: l)).
  - apply Permutation_cons_append.
  - now constructor.
Qed.

Lemma events_violates_id (tbl : list Event.t) (e : Event.t) :
  events_violates tbl e = None -> ~ In (Event.id e) (map Event.id tbl).
Proof.
  unfold events_violates. destruct (mem _ _) eqn:M; [discriminate|].
  intros _. now apply mem_false.
Qed.

Lemma event_registrations_violates_id (tbl : list Registration.t)
    (r : Registration.t) :
  event_registrations_violates tbl r = None ->
  ~ In (Registration.id r) (map Registration.id tbl).
Proof.
  unfold event_registrations_violates.
  destruct (negb _); [discriminate|].
  destruct (mem _ _) eqn:M; [discriminate|].
  intros _. now apply mem_false.
Qed.

Lemma profiles_violates_id (tbl : list Profile.t) (p : Profile.t) :
  profiles_violates tbl p = None -> ~ In (Profile.id p) (map Profile.id tbl).
Proof.
  unfold profiles_violates. destruct (mem _ _) eqn:M; [discriminate|].
  intros _. now apply mem_false.
Qed.

Lemma profiles_violates_user (tbl : list Profile.t) (p : Profile.t) :
  profiles_violates tbl p = None ->
  ~ In (Profile.user_id p) (map Profile.user_id tbl).
Proof.
  unfold profiles_violates. destruct (mem _ _); [discriminate|].
  destruct (mem _ _) eqn:M; [discriminate|].
  intros _. now apply mem_false.
Qed.

Lemma event_notifications_violates_id (tbl : list Notification.t)
    (n : Notification.t) :
  event_notifications_violates tbl n = None ->
  ~ In (Notification.id n) (map Notification.id tbl).
Proof.
  unfold event_notifications_violates.
  destruct (negb _); [discriminate|].
  destruct (mem _ _) eqn:M; [discriminate|].
  intros _. now apply mem_false.
Qed.

Lemma keyed_empty : keyed empty_db.
Proof. split; simpl; try constructor. contradiction. Qed.

Lemma keyed_execute (s : statement) (d d' : db) :
  keyed d -> execute s d = Ok d' -> keyed d'.
Proof.
  intros [K1 K2 K3 K4 K5 K6 K7] H. destruct s; simpl in H.
  - (* insert into auth.users *)
    unfold insert_auth_users, on_auth_user_created, handle_new_user in H.
    run_ok H.
    cbn [auth_users events event_registrations profiles event_notifications]
      in *.
    match type of E with
    | context [profiles_violates ?t ?p] =>
        destruct (profiles_violates t p) eqn:V; [discriminate|]
    end.
    inversion E; subst; clear E.
    pose proof (profiles_violates_id _ _ V) as P1.
    pose proof (profiles_violates_user _ _ V) as P2.
    split; simpl; try assumption.
    + rewrite map_app. simpl. apply NoDup_snoc; [assumption|].
      apply negb_true_iff in G. now apply mem_false in G.
    + rewrite map_app. now apply NoDup_snoc.
    + rewrite map_app. now apply NoDup_snoc.
    + intros v Hv. rewrite map_app. apply in_or_app.
      apply in_app_or in Hv. destruct Hv as [Hv|[<-|[]]].
      * left. auto.
      * right. now left.
  - (* delete from auth.users *)
    unfold delete_auth_users in H. inversion H; subst; clear H.
    split; simpl; try now apply NoDup_map_filter.
    intros v Hv. apply filter_In in Hv. destruct Hv as [Hv Hkeep].
    specialize (K7 v Hv). apply in_map_iff in K7.
    destruct K7 as [p [Hp Hin]]. apply in_map_iff. exists p.
    split; [assumption|]. apply filter_In. split; [assumption|].
    now rewrite Hp.
  - unfold insert_events in H. run_ok H. split; simpl; try assumption.
    exact (insert_rows_keys Event.id _ _ events_violates_id _ _ _ K2 E).
  - unfold update_events in H. run_ok H. split; simpl; try assumption.
    exact (update_rows_keys Event.id _ _ events_violates_id _ _ [] _ _ K2 E).
  - unfold delete_events in H. inversion H; subst; clear H.
    split; simpl; try assumption; unfold delete_rows;
      now apply NoDup_map_filter.
  - unfold insert_event_registrations in H. run_ok H.
    split; simpl; try assumption.
    exact (insert_rows_keys Registration.id _ _
             event_registrations_violates_id _ _ _ K3 E).
  - unfold update_event_registrations in H. run_ok H.
    split; simpl; try assumption.
    exact (update_rows_keys Registration.id _ _
             event_registrations_violates_id _ _ [] _ _ K3 E).
  - unfold delete_event_registrations in H. inversion H; subst; clear H.
    split; simpl; try assumption. unfold delete_rows.
    now apply NoDup_map_filter.
  - (* insert into profiles *)
    unfold insert_profiles in H. run_ok H.
    pose proof (insert_rows_keys Profile.id _ _ profiles_violates_id
                  _ _ _ K4 E) as P1.
    pose proof (insert_rows_keys Profile.user_id _ _ profiles_violates_user
                  _ _ _ K6 E) as P2.
    apply insert_rows_ok in E. destruct E as [-> _].
    split; simpl; try assumption.
    intros v Hv. rewrite map_app. apply in_or_app. left. auto.
  - (* update profiles *)
    unfold update_profiles in H. run_ok H.
    pose proof (update_rows_keys Profile.id _ _ profiles_violates_id
                  _ _ [] _ _ K4 E) as P1.
    pose proof (update_rows_keys Profile.user_id _ _ profiles_violates_user
                  _ _ [] _ _ K6 E) as P2.
    pose proof (update_rows_checked _ _ _ _ _ _ _ E) as Hc.
    apply update_rows_ok in E. simpl in E. subst.
    split; simpl; try assumption.
    intros v Hv. specialize (K7 v Hv). apply in_map_iff in K7.
    destruct K7 as [p [Hp Hin]]. apply in_map_iff.
    exists (updated (fun p => where_ p && profiles_update uid d p)
              (fun p => update_profiles_updated_at now (assign p)) p).
    split; [|now apply in_map].
    unfold updated.
    destruct (where_ p && profiles_update uid d p) eqn:T; [|assumption].
    specialize (Hc p Hin T). apply profiles_update_own in Hc.
    apply andb_true_iff in T. destruct T as [_ T].
    apply profiles_update_own in T. congruence.
  - unfold delete_profiles in H. inversion H; subst; clear H.
    assert (Hsame : delete_rows
                      (fun p => where_ p && profiles_delete uid d p)
                      (profiles d) = profiles d).
    { apply delete_rows_untargeted. intros p _. apply andb_false_r. }
    rewrite Hsame. split; simpl; assumption.
  - unfold insert_event_notifications in H. run_ok H.
    split; simpl; try assumption.
    exact (insert_rows_keys Notification.id _ _
             event_notifications_violates_id _ _ _ K5 E).
  - unfold update_event_notifications in H. run_ok H.
    split; simpl; try assumption.
    exact (update_rows_keys Notification.id _ _
             event_notifications_violates_id _ _ [] _ _ K5 E).
  - unfold delete_event_notifications in H. inversion H; subst; clear H.
    split; simpl; try assumption. unfold delete_rows.
    now apply NoDup_map_filter.
Qed.

Lemma reachable_keyed (d : db) : reachable d -> keyed d.
Proof.
  intros [ss <-]. generalize keyed_empty. generalize empty_db.
  induction ss as [|s rest IH]; simpl; intros d K; [assumption|].
  apply IH. destruct (execute s d) eqn:E; simpl; [|assumption].
  eapply keyed_execute; eauto.
Qed.

Lemma one_with_key {A : Type} (key : A -> uuid) (l : list A) (k : uuid) :
  NoDup (map key l) -> In k (map key l) ->
  exists x, filter (fun y => String.eqb (key y) k) l = [x] /\ key x = k.
Proof.
  induction l as [|a l IH]; simpl; intros Hnd Hin; [contradiction|].
  inversion Hnd as [|? ? Hnotin Hrest]; subst.
  destruct (String.eqb (key a) k) eqn:E.
  - apply String.eqb_eq in E. exists a. split; [|assumption].
    f_equal. apply filter_none. intros y Hy.
    destruct (String.eqb (key y) k) eqn:Ey; [|reflexivity].
    apply String.eqb_eq in Ey. exfalso. apply Hnotin.
    apply in_map_iff. exists y. split; [congruence | assumption].
  - apply String.eqb_neq in E. destruct Hin as [Hin|Hin]; [contradiction|].
    auto.
Qed.

(** X8.  In every state of the store each identity has exactly one profile, each
    profile belongs to an identity, and no two rows of a table share their
    primary key. *)
Theorem every_identity_has_exactly_one_profile (d : db) :
  reachable d ->
  (forall u, In u (auth_users d) ->
     exists p,
       filter (fun q => String.eqb (Profile.user_id q) (User.id u))
              (profiles d) = [p]
       /\ Profile.user_id p = User.id u)
  /\ (forall p, In p (profiles d) ->
        exists u, In u (auth_users d) /\ User.id u = Profile.user_id p)
  /\ NoDup (map User.id (auth_users d))
  /\ NoDup (map Event.id (events d))
  /\ NoDup (map Registration.id (event_registrations d))
  /\ NoDup (map Profile.id (profiles d))
  /\ NoDup (map Notification.id (event_notifications d)).
Proof.
  intros Hreach.
  destruct (reachable_keyed d Hreach) as [K1 K2 K3 K4 K5 K6 K7].
  destruct (reachable_consistent d Hreach) as [_ Hfk].
  split; [|split; [|tauto]].
  - intros u Hu. apply one_with_key; auto.
  - intros p Hp. specialize (Hfk p Hp). unfold has_user in Hfk.
    apply mem_In, in_map_iff in Hfk. destruct Hfk as [u [Hid Hu]]. eauto.
Qed.

Lemma every_identity_has_exactly_one_profile_witness :
  exists p,
    filter (fun q => String.eqb (Profile.user_id q) (User.id Scenario.bob))
           (profiles Scenario.after_bob) = [p]
    /\ Profile.user_id p = User.id Scenario.bob.
Proof.
  apply (every_identity_has_exactly_one_profile Scenario.after_bob).
  - exists (Scenario.signups
            ++ [InsertEvents (Some "carol") [Scenario.party];
                InsertEventRegistrations (Some "ann")
                  [Registration.mk "reg-ann" "party" "ann" 20
                     (Some "registered")];
                InsertEventRegistrations (Some "bob")
                  [Registration.mk "reg-bob" "party" "bob" 30
                     (Some "registered")]]).
    reflexivity.
  - right. right. left. reflexivity.
Defined.

(** ** References *)

Lemma has_event_ext (d d' : db) (x : uuid) :
  events d' = events d -> has_event d' x = has_event d x.
Proof. unfold has_event. now intros ->. Qed.

Lemma has_user_more (d d' : db) (x : uuid) (more : list User.t) :
  auth_users d' = auth_users d ++ more ->
  has_user d x = true -> has_user d' x = true.
Proof.
  unfold has_user. intros -> H. apply mem_In. apply mem_In in H.
  rewrite map_app. apply in_or_app. now left.
Qed.

Lemma has_event_more (d d' : db) (x : uuid) (more : list Event.t) :
  events d' = events d ++ more ->
  has_event d x = true -> has_event d' x = true.
Proof.
  unfold has_event. intros -> H. apply mem_In. apply mem_In in H.
  rewrite map_app. apply in_or_app. now left.
Qed.

Lemma has_user_or_null_ext (d d' : db) (x : option uuid) :
  auth_users d' = auth_users d ->
  has_user_or_null d' x = has_user_or_null d x.
Proof.
  intros H. destruct x; simpl; [now apply has_user_ext | reflexivity].
Qed.

Lemma references_ext (d d' : db) :
  auth_users d' = auth_users d -> events d' = events d ->
  (forall r, registration_references d' r = registration_references d r)
  /\ (forall n, notification_references d' n = notification_references d n).
Proof.
  intros Hu He. unfold registration_references, notification_references.
  split; intros x;
    now rewrite (has_user_ext d d'), (has_event_ext d d').
Qed.

Lemma referenced_empty : referenced empty_db.
Proof. split; simpl; contradiction. Qed.

Lemma has_user_kept (d : db) (ids : list uuid) (x : uuid) :
  has_user d x = true -> mem x ids = false ->
  mem x (map User.id
           (filter (fun u => negb (mem (User.id u) ids)) (auth_users d)))
  = true.
Proof.
  unfold has_user. intros H Hx. apply mem_In. apply mem_In in H.
  apply in_map_iff in H. destruct H as [u [Hid Hu]].
  apply in_map_iff. exists u. split; [assumption|].
  apply filter_In. split; [assumption|]. now rewrite Hid, Hx.
Qed.

Lemma has_event_kept (d : db) (deleted : Event.t -> bool) (x : uuid) :
  has_event d x = true ->
  mem x (map Event.id (filter deleted (events d))) = false ->
  mem x (map Event.id (filter (fun e => negb (deleted e)) (events d)))
  = true.
Proof.
  unfold has_event. intros H Hx. apply mem_In. apply mem_In in H.
  apply in_map_iff in H. destruct H as [e [Hid He]].
  apply in_map_iff. exists e. split; [assumption|].
  apply filter_In. split; [assumption|].
  destruct (deleted e) eqn:D; [|reflexivity].
  exfalso. apply mem_false in Hx. apply Hx. apply gone_ids. eauto.
Qed.

Lemma updated_rows_forall {row : Type} (target : row -> bool)
    (new_row : row -> row) (ok : row -> bool) (tbl : list row) :
  (forall r, In r tbl -> ok r = true) ->
  forallb ok (map new_row (filter target tbl)) = true ->
  forall r, In r (map (updated target new_row) tbl) -> ok r = true.
Proof.
  intros Hold Hnew r Hin. apply in_map_iff in Hin.
  destruct Hin as [q [Hq Hin]]. unfold updated in Hq.
  destruct (target q) eqn:T.
  - subst r. apply (forallb_In _ _ _ Hnew). apply in_map.
    apply filter_In. now split.
  - subst r. auto.
Qed.

Lemma referenced_execute (s : statement) (d d' : db) :
  referenced d -> execute s d = Ok d' -> referenced d'.
Proof.
  intros [R1 R2 R3] H. destruct s; simpl in H.
  - (* insert into auth.users *)
    unfold insert_auth_users, on_auth_user_created, handle_new_user in H.
    run_ok H.
    match goal with
    | |- referenced ?x =>
        assert (Hu : forall v, has_user d v = true -> has_user x v = true)
          by (intros v; apply (has_user_more d x v [u]); reflexivity);
        assert (He : forall v, has_event x v = has_event d v)
          by reflexivity
    end.
    split; cbn [events event_registrations event_notifications].
    + intros e Hin. specialize (R1 e Hin).
      destruct (Event.created_by e); simpl in *; auto.
    + intros r Hin. specialize (R2 r Hin).
      unfold registration_references in *.
      apply andb_true_iff in R2. rewrite He. apply andb_true_iff.
      split; [tauto | apply Hu; tauto].
    + intros n Hin. specialize (R3 n Hin).
      unfold notification_references in *.
      apply andb_true_iff in R3. rewrite He. apply andb_true_iff.
      split; [tauto | apply Hu; tauto].
  - (* delete from auth.users *)
    unfold delete_auth_users in H. inversion H; subst; clear H.
    split; cbn [events event_registrations event_notifications].
    + intros e Hin. apply filter_In in Hin. destruct Hin as [Hin Hkeep].
      specialize (R1 e Hin).
      destruct (Event.created_by e) as [v|]; [|reflexivity].
      simpl in *. unfold has_user. simpl.
      apply has_user_kept; [assumption|]. now apply negb_true_iff.
    + intros r Hin. apply filter_In in Hin. destruct Hin as [Hin Hkeep].
      specialize (R2 r Hin). unfold registration_references in *.
      apply andb_true_iff in R2, Hkeep. apply andb_true_iff.
      destruct R2 as [Re Ru], Hkeep as [Hk1 Hk2].
      apply negb_true_iff in Hk1, Hk2. split.
      * unfold has_event. simpl. now apply has_event_kept.
      * unfold has_user. simpl. now apply has_user_kept.
    + intros n Hin. apply filter_In in Hin. destruct Hin as [Hin Hkeep].
      specialize (R3 n Hin). unfold notification_references in *.
      apply andb_true_iff in R3, Hkeep. apply andb_true_iff.
      destruct R3 as [Re Ru], Hkeep as [Hk1 Hk2].
      apply negb_true_iff in Hk1, Hk2. split.
      * unfold has_event. simpl. now apply has_event_kept.
      * unfold has_user. simpl. now apply has_user_kept.
  - (* insert into events *)
    unfold insert_events in H. run_ok H.
    apply insert_rows_ok in E. destruct E as [-> _].
    assert (He : forall v, has_event d v = true ->
                           has_event (set_events d (events d ++ rows)) v
                           = true)
      by (intros v; apply (has_event_more d _ v rows); reflexivity).
    split; cbn [events event_registrations event_notifications set_events].
    + intros e Hin. rewrite (has_user_or_null_ext d) by reflexivity.
      apply in_app_or in Hin. destruct Hin as [Hin|Hin]; [auto|].
      exact (forallb_In _ _ _ G Hin).
    + intros r Hin. specialize (R2 r Hin).
      unfold registration_references in *. apply andb_true_iff in R2.
      apply andb_true_iff. split; [apply He; tauto | tauto].
    + intros n Hin. specialize (R3 n Hin).
      unfold notification_references in *. apply andb_true_iff in R3.
      apply andb_true_iff. split; [apply He; tauto | tauto].
  - (* update events *)
    unfold update_events in H. run_ok H.
    apply update_rows_ok in E. simpl in E. subst.
    unfold references_kept in G0. apply andb_true_iff in G0.
    destruct G0 as [Gr Gn].
    split; cbn [events event_registrations event_notifications set_events].
    + intros e Hin. rewrite (has_user_or_null_ext d) by reflexivity.
      revert e Hin. apply updated_rows_forall; assumption.
    + intros r Hin. specialize (R2 r Hin).
      pose proof (forallb_In _ _ _ Gr Hin) as K. simpl in K.
      unfold registration_references in *. apply andb_true_iff in R2.
      destruct R2 as [Re Ru]. rewrite Re in K. simpl in K.
      apply andb_true_iff. split; assumption.
    + intros n Hin. specialize (R3 n Hin).
      pose proof (forallb_In _ _ _ Gn Hin) as K. simpl in K.
      unfold notification_references in *. apply andb_true_iff in R3.
      destruct R3 as [Re Ru]. rewrite Re in K. simpl in K.
      apply andb_true_iff. split; assumption.
  - (* delete from events *)
    unfold delete_events in H. inversion H; subst; clear H.
    split; cbn [events event_registrations event_notifications].
    + intros e Hin. unfold delete_rows in Hin. apply filter_In in Hin.
      destruct Hin as [Hin _]. specialize (R1 e Hin).
      now rewrite (has_user_or_null_ext d) by reflexivity.
    + intros r Hin. apply filter_In in Hin. destruct Hin as [Hin Hkeep].
      specialize (R2 r Hin). unfold registration_references in *.
      apply andb_true_iff in R2. destruct R2 as [Re Ru].
      apply negb_true_iff in Hkeep. apply andb_true_iff. split.
      * unfold has_event. simpl. unfold delete_rows.
        now apply has_event_kept.
      * assumption.
    + intros n Hin. apply filter_In in Hin. destruct Hin as [Hin Hkeep].
      specialize (R3 n Hin). unfold notification_references in *.
      apply andb_true_iff in R3. destruct R3 as [Re Ru].
      apply negb_true_iff in Hkeep. apply andb_true_iff. split.
      * unfold has_event. simpl. unfold delete_rows.
        now apply has_event_kept.
      * assumption.
  - (* insert into event_registrations *)
    unfold insert_event_registrations in H. run_ok H.
    apply insert_rows_ok in E. destruct E as [-> _].
    split; cbn [events event_registrations event_notifications
                set_event_registrations]; [assumption| |assumption].
    intros r Hin. apply in_app_or in Hin. destruct Hin as [Hin|Hin].
    + now apply R2.
    + exact (forallb_In _ _ _ G Hin).
  - (* update event_registrations *)
    unfold update_event_registrations in H. run_ok H.
    apply update_rows_ok in E. simpl in E. subst.
    split; cbn [events event_registrations event_notifications
                set_event_registrations]; [assumption| |assumption].
    apply updated_rows_forall; assumption.
  - (* delete from event_registrations *)
    unfold delete_event_registrations in H. inversion H; subst; clear H.
    split; cbn [events event_registrations event_notifications
                set_event_registrations]; [assumption| |assumption].
    intros r Hin. apply filter_In in Hin. now apply R2.
  - unfold insert_profiles in H. run_ok H. split; assumption.
  - unfold update_profiles in H. run_ok H. split; assumption.
  - unfold delete_profiles in H. inversion H; subst. split; assumption.
  - (* insert into event_notifications *)
    unfold insert_event_notifications in H. run_ok H.
    apply insert_rows_ok in E. destruct E as [-> _].
    split; cbn [events event_registrations event_notifications
                set_event_notifications]; [assumption|assumption|].
    intros n Hin. apply in_app_or in Hin. destruct Hin as [Hin|Hin].
    + now apply R3.
    + exact (forallb_In _ _ _ G Hin).
  - (* update event_notifications *)
    unfold update_event_notifications in H. run_ok H.
    apply update_rows_ok in E. simpl in E. subst.
    split; cbn [events event_registrations event_notifications
                set_event_notifications]; [assumption|assumption|].
    apply updated_rows_forall; assumption.
  - (* delete from event_notifications *)
    unfold delete_event_notifications in H. inversion H; subst; clear H.
    split; cbn [events event_registrations event_notifications
                set_event_notifications]; [assumption|assumption|].
    intros n Hin. apply filter_In in Hin. now apply R3.
Qed.

Lemma reachable_referenced (d : db) : reachable d -> referenced d.
Proof.
  intros [ss <-]. generalize referenced_empty. generalize empty_db.
  induction ss as [|s rest IH]; simpl; intros d K; [assumption|].
  apply IH. destruct (execute s d) eqn:E; simpl; [|assumption].
  eapply referenced_execute; eauto.
Qed.

(** X9.  In every state of the store every reference names an existing row:
    each registration and each notification has its event and its user,
    and each event with a creator has that identity. *)
Theorem references_never_dangle (d : db) :
  reachable d ->
  (forall r, In r (event_registrations d) ->
     (exists e, In e (events d) /\ Event.id e = Registration.event_id r)
     /\ exists u, In u (auth_users d) /\ User.id u = Registration.user_id r)
  /\ (forall n, In n (event_notifications d) ->
        (exists e, In e (events d) /\ Event.id e = Notification.event_id n)
        /\ exists u, In u (auth_users d)
                     /\ User.id u = Notification.user_id n)
  /\ (forall e c, In e (events d) -> Event.created_by e = Some c ->
        exists u, In u (auth_users d) /\ User.id u = c).
Proof.
  intros Hreach. destruct (reachable_referenced d Hreach) as [R1 R2 R3].
  assert (Hu : forall x, has_user d x = true ->
                 exists u, In u (auth_users d) /\ User.id u = x).
  { unfold has_user. intros x H. apply mem_In, in_map_iff in H.
    destruct H as [u [? ?]]. eauto. }
  assert (He : forall x, has_event d x = true ->
                 exists e, In e (events d) /\ Event.id e = x).
  { unfold has_event. intros x H. apply mem_In, in_map_iff in H.
    destruct H as [e [? ?]]. eauto. }
  split; [|split].
  - intros r Hin. specialize (R2 r Hin). unfold registration_references in R2.
    apply andb_true_iff in R2. destruct R2. auto.
  - intros n Hin. specialize (R3 n Hin).
    unfold notification_references in R3.
    apply andb_true_iff in R3. destruct R3. auto.
  - intros e c Hin Hc. specialize (R1 e Hin). rewrite Hc in R1. auto.
Qed.

Lemma references_never_dangle_witness :
  exists u, In u (auth_users Scenario.opened) /\ User.id u = "carol".
Proof.
  apply (proj2 (proj2 (references_never_dangle Scenario.opened
           (ex_intro _
              (Scenario.signups
                 ++ [InsertEvents (Some "carol") [Scenario.party]])
              eq_refl)))
           Scenario.party "carol").
  - left. reflexivity.
  - reflexivity.
Defined.

(** ** Check constraints *)

Section Checked.
Context {row : Type}.
Variable good : row -> Prop.
Variable with_check : row -> bool.
Variable violates : list row -> row -> option sqlstate.
Hypothesis violates_good : forall tbl r, violates tbl r = None -> good r.

Lemma insert_rows_good (new tbl t : list row) :
  Forall good tbl ->
  insert_rows with_check violates new tbl = Ok t ->
  Forall good t.
Proof.
  revert tbl. induction new as [|r rest IH]; simpl; intros tbl Hall H.
  - now inversion H; subst.
  - destruct (with_check r); [|discriminate].
    destruct (violates tbl r) eqn:V; [discriminate|].
    apply (IH (tbl ++ [r])); [|assumption].
    apply Forall_app. split; [assumption|]. constructor; eauto.
Qed.

Variable target : row -> bool.
Variable new_row : row -> row.

Lemma update_rows_good (done todo t : list row) :
  Forall good (done ++ todo) ->
  update_rows target new_row with_check violates done todo = Ok t ->
  Forall good t.
Proof.
  revert done. induction todo as [|r rest IH]; simpl; intros done Hall H.
  - inversion H; subst. now rewrite app_nil_r in Hall.
  - apply Forall_app in Hall. destruct Hall as [Hd Ht].
    inversion Ht as [|? ? Hr Hrest]; subst.
    destruct (target r).
    + destruct (with_check (new_row r)); [|discriminate].
      destruct (violates (done ++ rest) (new_row r)) eqn:V; [discriminate|].
      apply (IH (done ++ [new_row r])); [|assumption].
      rewrite <- app_assoc. apply Forall_app. split; [assumption|].
      constructor; eauto.
    + apply (IH (done ++ [r])); [|assumption].
      rewrite <- app_assoc. apply Forall_app. split; [assumption|].
      now constructor.
Qed.

End Checked.

Lemma one_of_three (s a b c : text) :
  existsb (String.eqb s) [a; b; c] = true -> s = a \/ s = b \/ s = c.
Proof.
  simpl. rewrite orb_false_r, !orb_true_iff, !String.eqb_eq. tauto.
Qed.

Lemma event_registrations_violates_status (tbl : list Registration.t)
    (r : Registration.t) :
  event_registrations_violates tbl r = None -> status_allowed r.
Proof.
  unfold event_registrations_violates, status_allowed.
  destruct (Registration.status r) as [s|]; [|auto].
  unfold Sql.in_list, Sql.check.
  destruct (existsb _ _) eqn:X; simpl; [|discriminate].
  intros _. right. apply one_of_three in X.
  destruct X as [-> | [-> | ->]]; auto.
Qed.

Lemma event_notifications_violates_type (tbl : list Notification.t)
    (n : Notification.t) :
  event_notifications_violates tbl n = None -> notification_type_allowed n.
Proof.
  unfold event_notifications_violates, notification_type_allowed.
  unfold Sql.in_list, Sql.check.
  destruct (existsb _ _) eqn:X; simpl; [|discriminate].
  intros _. now apply one_of_three in X.
Qed.

Lemma Forall_filter {A : Type} (P : A -> Prop) (keep : A -> bool)
    (l : list A) :
  Forall P l -> Forall P (filter keep l).
Proof.
  rewrite !Forall_forall. intros H x Hx. apply filter_In in Hx. apply H.
  tauto.
Qed.

Lemma checked_execute (s : statement) (d d' : db) :
  Forall status_allowed (event_registrations d)
  /\ Forall notification_type_allowed (event_notifications d) ->
  execute s d = Ok d' ->
  Forall status_allowed (event_registrations d')
  /\ Forall notification_type_allowed (event_notifications d').
Proof.
  intros [Hr Hn] H. pose proof (execute_frame s d d' H) as F.
  destruct s; simpl in H;
    try (assert (Fr : event_registrations d' = event_registrations d)
           by tauto;
         assert (Fn : event_notifications d' = event_notifications d)
           by tauto;
         rewrite Fr, Fn; now split).
  - unfold delete_auth_users in H. inversion H; subst; clear H. simpl.
    split; now apply Forall_filter.
  - unfold delete_events in H. inversion H; subst; clear H. simpl.
    split; now apply Forall_filter.
  - unfold insert_event_registrations in H. run_ok H. simpl.
    split; [|assumption].
    exact (insert_rows_good status_allowed _ _
             event_registrations_violates_status _ _ _ Hr E).
  - unfold update_event_registrations in H. run_ok H. simpl.
    split; [|assumption].
    exact (update_rows_good status_allowed _ _
             event_registrations_violates_status _ _ [] _ _ Hr E).
  - unfold delete_event_registrations in H. inversion H; subst; clear H.
    simpl. split; [|assumption]. unfold delete_rows. now apply Forall_filter.
  - unfold insert_event_notifications in H. run_ok H. simpl.
    split; [assumption|].
    exact (insert_rows_good notification_type_allowed _ _
             event_notifications_violates_type _ _ _ Hn E).
  - unfold update_event_notifications in H. run_ok H. simpl.
    split; [assumption|].
    exact (update_rows_good notification_type_allowed _ _
             event_notifications_violates_type _ _ [] _ _ Hn E).
  - unfold delete_event_notifications in H. inversion H; subst; clear H.
    simpl. split; [assumption|]. unfold delete_rows. now apply Forall_filter.
Qed.

(** X10.  In every state of the store the status of a registration is [NULL],
    [registered], [cancelled] or [waitlist], and the type of a notification
    is [reminder], [change] or [cancellation]. *)
Theorem stored_values_meet_the_check_constraints (d : db) :
  reachable d ->
  (forall r, In r (event_registrations d) -> status_allowed r)
  /\ (forall n, In n (event_notifications d) -> notification_type_allowed n).
Proof.
  intros [ss <-]. rewrite <- !Forall_forall.
  assert (Hstart : Forall status_allowed (event_registrations empty_db)
                   /\ Forall notification_type_allowed
                        (event_notifications empty_db))
    by (split; constructor).
  revert Hstart. generalize empty_db.
  induction ss as [|s rest IH]; simpl; intros d K; [assumption|].
  apply IH. destruct (execute s d) eqn:E; simpl; [|assumption].
  eapply checked_execute; eauto.
Qed.

Lemma stored_values_meet_the_check_constraints_witness :
  status_allowed (Registration.mk "reg-ann" "party" "ann" 20
                    (Some "registered")).
Proof.
  apply (proj1 (stored_values_meet_the_check_constraints Scenario.after_ann
           (ex_intro _
              (Scenario.signups
                 ++ [InsertEvents (Some "carol") [Scenario.party];
                     InsertEventRegistrations (Some "ann")
                       [Registration.mk "reg-ann" "party" "ann" 20
                          (Some "registered")]])
              eq_refl))).
  left. reflexivity.
Defined.

(** * Further properties of the event-details dialog *)

(** ** The buttons *)

(** X11.  The dialog never shows Register together with Unregister or with
    Event Full, nor Unregister together with Event Full; the event's
    creator is never shown Register or Event Full; Edit and Delete come
    together, for the creator only; and without an event the dialog shows
    no button at all. *)
Theorem dialog_buttons_exclude_each_other (p : EventDetails.props)
    (st : EventDetails.state) :
  let shown := EventDetails.buttons p st in
  (forall a b, ~ (In (EventDetails.RegisterButton a) shown
                  /\ In (EventDetails.UnregisterButton b) shown))
  /\ (forall a, ~ (In (EventDetails.RegisterButton a) shown
                   /\ In EventDetails.EventFullButton shown))
  /\ (forall b, ~ (In (EventDetails.UnregisterButton b) shown
                   /\ In EventDetails.EventFullButton shown))
  /\ (forall a, In EventDetails.EditButton shown ->
                ~ In (EventDetails.RegisterButton a) shown
                /\ ~ In EventDetails.EventFullButton shown)
  /\ (In EventDetails.EditButton shown <->
      In (EventDetails.DeleteButton (EventDetails.loading st)) shown)
  /\ (In EventDetails.EditButton shown <->
      exists ev, EventDetails.event p = Some ev
                 /\ EventDetails.currentUserId p = Event.created_by ev
                 /\ EventDetails.currentUserId p <> None)
  /\ (EventDetails.event p = None -> shown = []).
Proof.
  unfold EventDetails.buttons.
  destruct (EventDetails.event p) as [ev|]; simpl.
  2:{ repeat split; try tauto; try (intros; tauto).
      intros [ev [H _]]. discriminate. }
  assert (Hcre : EventDetails.isEventCreator p ev = true <->
                 EventDetails.currentUserId p = Event.created_by ev
                 /\ EventDetails.currentUserId p <> None).
  { unfold EventDetails.isEventCreator, Js.strict_eq.
    destruct (EventDetails.currentUserId p) as [a|],
      (Event.created_by ev) as [b|]; split; try discriminate;
      try (intros [? ?]; congruence).
    - intros H. apply String.eqb_eq in H. subst. split; [reflexivity|].
      discriminate.
    - intros [H _]. inversion H. apply String.eqb_refl. }
  unfold EventDetails.canRegister, EventDetails.canUnregister.
  destruct (EventDetails.registration st) as [reg|];
    destruct (EventDetails.isEventCreator p ev);
    destruct (Js.truthy_bool (Event.is_public ev));
    destruct (EventDetails.isFull ev st);
    try destruct (Registration.status reg) as [s|];
    try destruct (String.eqb s "registered");
    simpl;
    (repeat split;
     try (intros; intuition discriminate);
     try (intros _; exists ev; split; [reflexivity | now apply Hcre]);
     try (intros [ev' [Hev' Hc]]; inversion Hev'; subst ev';
          apply Hcre in Hc; discriminate)).
Qed.

(** ** When an event counts as full *)

(** X12.  An event without a limit, or with the limit 0, is never full; with a
    limit other than 0 it is full exactly when the loaded count has
    reached the limit.  A click on a full event finds no Register button
    and writes nothing; a visitor who could register otherwise is shown
    the Event Full button alone. *)
Theorem event_full_exactly_when_count_reaches_limit :
  (forall ev st,
      Event.max_attendees ev = None \/ Event.max_attendees ev = Some 0 ->
      EventDetails.isFull ev st = false)
  /\ (forall ev st n,
         Event.max_attendees ev = Some n -> n <> 0 ->
         (EventDetails.isFull ev st = true
          <-> n <= EventDetails.registrationCount st))
  /\ (forall uid gen now d p st ev,
         EventDetails.event p = Some ev ->
         EventDetails.isFull ev st = true ->
         EventDetails.click_register uid gen now d p st = (d, st, None)
         /\ (EventDetails.canRegister p ev st = true ->
             EventDetails.buttons p st = [EventDetails.EventFullButton])).
Proof.
  split; [|split].
  - intros ev st [H|H]; unfold EventDetails.isFull; now rewrite H.
  - intros ev st n H Hn. unfold EventDetails.isFull. rewrite H. simpl.
    apply Z.eqb_neq in Hn. rewrite Hn. simpl. apply Z.leb_le.
  - intros uid gen now d p st ev Hev Hfull. split.
    + unfold EventDetails.click_register.
      destruct (EventDetails.offers _ p st) eqn:O; [|reflexivity].
      apply offers_register in O. destruct O as [ev' [Hev' [_ Hf]]].
      congruence.
    + intros Hcan. unfold EventDetails.buttons.
      rewrite Hev, Hcan, Hfull. simpl.
      unfold EventDetails.canRegister in Hcan.
      unfold EventDetails.canUnregister.
      destruct (EventDetails.registration st); [discriminate|].
      apply andb_true_iff in Hcan. destruct Hcan as [_ Hc].
      apply negb_true_iff in Hc. now rewrite Hc.
Qed.

Lemma event_full_exactly_when_count_reaches_limit_witness :
  EventDetails.isFull Scenario.party (EventDetails.mk None 1 false) = true.
Proof.
  apply (proj1 (proj2 event_full_exactly_when_count_reaches_limit)
           Scenario.party (EventDetails.mk None 1 false) 1).
  - reflexivity.
  - discriminate.
  - simpl. lia.
Defined.

(** ** Registering and unregistering *)

Lemma insert_one_registration (uid : option uuid) (r : Registration.t)
    (d d' : db) :
  insert_event_registrations uid [r] d = Ok d' ->
  d' = set_event_registrations d (event_registrations d ++ [r])
  /\ uid = Some (Registration.user_id r)
  /\ ~ In (Registration.id r) (map Registration.id (event_registrations d))
  /\ ~ In (registration_key r)
          (map registration_key (event_registrations d))
  /\ registration_references d r = true.
Proof.
  unfold insert_event_registrations. simpl. intros H.
  destruct (event_registrations_insert uid d r) eqn:P; [|discriminate].
  destruct (event_registrations_violates (event_registrations d) r) eqn:V;
    [discriminate|].
  simpl in H. destruct (registration_references d r) eqn:F; [|discriminate].
  simpl in H. inversion H; subst; clear H.
  split; [reflexivity|]. split.
  - unfold event_registrations_insert, permissive,
      Users_can_register_for_events in P. simpl in P.
    rewrite orb_false_r in P. now apply own_registration_policy.
  - split; [now apply event_registrations_violates_id in V|].
    split; [now apply event_registrations_violates_key in V | reflexivity].
Qed.

Lemma no_row_for_fresh_key (l : list Registration.t) (e u : uuid)
    (f : Registration.t -> bool) :
  ~ In (e, u) (map registration_key l) ->
  (forall r, f r = true ->
             Registration.event_id r = e /\ Registration.user_id r = u) ->
  filter f l = [].
Proof.
  intros Hfresh Hf. apply filter_none. intros r Hin.
  destruct (f r) eqn:F; [|reflexivity].
  exfalso. apply Hfresh. apply in_map_iff. exists r. split; [|assumption].
  destruct (Hf r F) as [He Hu]. unfold registration_key. now rewrite He, Hu.
Qed.

(** X13.  A click on Register writes at most one row.  Either nothing is
    written, or the session belongs to the dialog's user, the event and
    the user exist in the store, the user had no row for the event in any
    status, and the table has grown by exactly the row
    [(event, user, registered)]; the dialog then holds that row as its
    registration and offers Unregister. *)
Theorem register_writes_one_own_row_or_nothing (uid : option uuid)
    (gen : uuid) (now : timestamptz) (d : db) (p : EventDetails.props)
    (st : EventDetails.state) :
  let '(d', st', _) := EventDetails.handleRegister uid gen now d p st in
  d' = d
  \/ exists ev me,
       EventDetails.event p = Some ev
       /\ EventDetails.currentUserId p = Some me
       /\ uid = Some me
       /\ has_event d (Event.id ev) = true
       /\ has_user d me = true
       /\ (forall r, In r (event_registrations d) ->
             ~ (Registration.event_id r = Event.id ev
                /\ Registration.user_id r = me))
       /\ d' = set_event_registrations d
                 (event_registrations d
                  ++ [Registration.mk gen (Event.id ev) me now
                        (Some "registered")])
       /\ EventDetails.registration st'
          = Some (Registration.mk gen (Event.id ev) me now
                    (Some "registered"))
       /\ EventDetails.canUnregister st' = true.
Proof.
  unfold EventDetails.handleRegister.
  destruct (EventDetails.event p) as [ev|] eqn:Hev; [|now left].
  destruct (EventDetails.currentUserId p) as [me|] eqn:Hme; [|now left].
  destruct (Js.truthy_string (Some me)) eqn:Ht; [|now left].
  destruct (insert_event_registrations uid _ d) as [d'|] eqn:I; [|now left].
  right. exists ev, me.
  apply insert_one_registration in I. simpl in I.
  destruct I as [-> [-> [Hid [Hkey Href]]]].
  unfold registration_references in Href. simpl in Href.
  apply andb_true_iff in Href. destruct Href as [He Hu].
  assert (Hreg : EventDetails.registration
                   (EventDetails.fetchRegistrationInfo (Some me)
                      (set_event_registrations d
                         (event_registrations d
                          ++ [Registration.mk gen (Event.id ev) me now
                                (Some "registered")])) p st)
                 = Some (Registration.mk gen (Event.id ev) me now
                           (Some "registered"))).
  { unfold EventDetails.fetchRegistrationInfo. rewrite Hev, Hme, Ht. simpl.
    rewrite own_registrations_visible.
    2:{ intros r Hr. apply andb_true_iff in Hr. destruct Hr as [Hr _].
        apply andb_true_iff in Hr. destruct Hr as [_ Hr].
        now apply String.eqb_eq in Hr. }
    simpl. rewrite filter_app.
    rewrite (no_row_for_fresh_key _ (Event.id ev) me); [|exact Hkey|].
    - simpl. now rewrite !String.eqb_refl.
    - intros r Hr. apply andb_true_iff in Hr. destruct Hr as [Hr _].
      apply andb_true_iff in Hr. destruct Hr as [H1 H2].
      apply String.eqb_eq in H1, H2. auto. }
  repeat split; try assumption; try reflexivity.
  - intros r Hin [H1 H2]. apply Hkey. apply in_map_iff. exists r.
    split; [|assumption]. unfold registration_key. simpl. now rewrite H1, H2.
  - unfold EventDetails.canUnregister. simpl. now rewrite Hreg.
Qed.

(** X14.  A user who already has a row for the event, in whatever status
    ([cancelled] and [waitlist] included), cannot register through the
    dialog: the click on Register is answered with the unique violation
    and writes nothing. *)
Theorem register_fails_for_a_user_with_any_row (me gen : uuid)
    (now : timestamptz) (d : db) (p : EventDetails.props)
    (st : EventDetails.state) (ev : Event.t) (r : Registration.t) :
  EventDetails.event p = Some ev ->
  EventDetails.currentUserId p = Some me ->
  me <> "" ->
  In r (event_registrations d) ->
  Registration.event_id r = Event.id ev ->
  Registration.user_id r = me ->
  EventDetails.handleRegister (Some me) gen now d p st
  = (d, EventDetails.setLoading false st,
     Some (EventDetails.Error unique_violation)).
Proof.
  intros Hev Hme Hne Hin He Hu.
  unfold EventDetails.handleRegister. rewrite Hev, Hme. simpl.
  apply String.eqb_neq in Hne. rewrite Hne. simpl.
  unfold insert_event_registrations. simpl.
  unfold event_registrations_insert, permissive,
    Users_can_register_for_events. simpl. rewrite String.eqb_refl. simpl.
  unfold event_registrations_violates. simpl.
  destruct (mem gen (map Registration.id (event_registrations d)));
    [reflexivity|].
  assert (X : existsb
                (same_event_and_user
                   (Registration.mk gen (Event.id ev) me now
                      (Some "registered")))
                (event_registrations d) = true).
  { apply existsb_exists. exists r. split; [assumption|].
    unfold same_event_and_user. simpl.
    now rewrite He, Hu, !String.eqb_refl. }
  now rewrite X.
Qed.

Lemma register_fails_for_a_user_with_any_row_witness :
  EventDetails.handleRegister (Some "ann") "reg-2" 40 Scenario.after_ann
    (EventDetails.mkprops true (Some Scenario.party) (Some "ann"))
    EventDetails.initial
  = (Scenario.after_ann, EventDetails.setLoading false EventDetails.initial,
     Some (EventDetails.Error unique_violation)).
Proof.
  apply (register_fails_for_a_user_with_any_row "ann" "reg-2" 40
           Scenario.after_ann
           (EventDetails.mkprops true (Some Scenario.party) (Some "ann"))
           EventDetails.initial Scenario.party
           (Registration.mk "reg-ann" "party" "ann" 20 (Some "registered")));
    try reflexivity.
  - discriminate.
  - left. reflexivity.
Defined.

(** X15.  Registering and then unregistering brings the store back to what it
    was: when a click on Register has succeeded, the click on Unregister
    that follows deletes exactly the row just written, and the dialog
    holds no registration any more. *)
Theorem unregister_undoes_register (me gen : uuid) (now : timestamptz)
    (d d1 : db) (p : EventDetails.props) (st st1 : EventDetails.state)
    (message : text) :
  EventDetails.handleRegister (Some me) gen now d p st
  = (d1, st1, Some (EventDetails.Success message)) ->
  exists st2,
    EventDetails.handleUnregister (Some me) d1 p st1
    = (d, st2,
       Some (EventDetails.Success
               "Successfully unregistered from the event."))
    /\ EventDetails.registration st2 = None
    /\ EventDetails.canUnregister st2 = false.
Proof.
  intros H.
  pose proof (register_writes_one_own_row_or_nothing (Some me) gen now d p st)
    as R.
  unfold EventDetails.handleRegister in H, R.
  destruct (EventDetails.event p) as [ev|] eqn:Hev; [|discriminate].
  destruct (EventDetails.currentUserId p) as [me'|] eqn:Hme; [|discriminate].
  destruct (Js.truthy_string (Some me')) eqn:Ht; [|discriminate].
  destruct (insert_event_registrations (Some me) _ d) as [d'|] eqn:I;
    [|discriminate].
  inversion H; subst d1 st1; clear H.
  apply insert_one_registration in I. simpl in I.
  destruct I as [-> [Hsame [Hid [Hkey _]]]]. inversion Hsame; subst me'.
  destruct R as [R | [ev' [me' [_ [_ [_ [_ [_ [_ [_ [Hreg _]]]]]]]]]]].
  { exfalso. destruct d. unfold set_event_registrations in R. simpl in R.
    inversion R as [R']. symmetry in R'.
    apply (f_equal (@List.length _)) in R'. rewrite length_app in R'.
    simpl in R'. lia. }
  unfold EventDetails.handleUnregister. rewrite Hreg. rewrite Hme, Ht.
  cbn [Registration.id].
  unfold delete_event_registrations.
  cbn [event_registrations set_event_registrations].
  assert (Hdel : delete_rows
                   (fun r =>
                      String.eqb (Registration.id r) gen
                      && event_registrations_delete (Some me)
                           (set_event_registrations d
                              (event_registrations d
                               ++ [Registration.mk gen (Event.id ev) me now
                                     (Some "registered")])) r)
                   (event_registrations d
                    ++ [Registration.mk gen (Event.id ev) me now
                          (Some "registered")])
                 = event_registrations d).
  { unfold delete_rows. rewrite filter_app. simpl.
    rewrite String.eqb_refl. simpl.
    unfold event_registrations_delete, permissive,
      Users_can_delete_their_own_registrations. simpl.
    rewrite String.eqb_refl. simpl. rewrite app_nil_r.
    apply filter_all. intros r Hin.
    destruct (String.eqb (Registration.id r) gen) eqn:X; [|reflexivity].
    apply String.eqb_eq in X. exfalso. apply Hid. simpl. rewrite <- X.
    now apply in_map. }
  rewrite Hdel.
  assert (Hd : set_event_registrations
                 (set_event_registrations d
                    (event_registrations d
                     ++ [Registration.mk gen (Event.id ev) me now
                           (Some "registered")]))
                 (event_registrations d) = d) by now destruct d.
  rewrite Hd. eexists. split; [reflexivity|].
  assert (Hnone : EventDetails.registration
                    (EventDetails.fetchRegistrationInfo (Some me) d p
                       (EventDetails.setLoading false
                          (EventDetails.fetchRegistrationInfo (Some me)
                             (set_event_registrations d
                                (event_registrations d
                                 ++ [Registration.mk gen (Event.id ev) me now
                                       (Some "registered")])) p st)))
                  = None).
  { unfold EventDetails.fetchRegistrationInfo at 1. rewrite Hev, Hme, Ht.
    simpl. rewrite own_registrations_visible.
    2:{ intros r Hr. apply andb_true_iff in Hr. destruct Hr as [Hr _].
        apply andb_true_iff in Hr. destruct Hr as [_ Hr].
        now apply String.eqb_eq in Hr. }
    rewrite (no_row_for_fresh_key _ (Event.id ev) me); [reflexivity|exact Hkey|].
    intros r Hr. apply andb_true_iff in Hr. destruct Hr as [Hr _].
    apply andb_true_iff in Hr. destruct Hr as [H1 H2].
    apply String.eqb_eq in H1, H2. auto. }
  split.
  - simpl. exact Hnone.
  - unfold EventDetails.canUnregister. simpl. now rewrite Hnone.
Qed.

Lemma unregister_undoes_register_witness :
  exists st2,
    EventDetails.handleUnregister (Some "ann") Scenario.after_ann
      (EventDetails.mkprops true (Some Scenario.party) (Some "ann"))
      (snd (fst (EventDetails.handleRegister (Some "ann") "reg-ann" 20
                   Scenario.opened
                   (EventDetails.mkprops true (Some Scenario.party)
                      (Some "ann"))
                   EventDetails.initial)))
    = (Scenario.opened, st2,
       Some (EventDetails.Success
               "Successfully unregistered from the event."))
    /\ EventDetails.registration st2 = None
    /\ EventDetails.canUnregister st2 = false.
Proof.
  apply (unregister_undoes_register "ann" "reg-ann" 20 Scenario.opened
           Scenario.after_ann
           (EventDetails.mkprops true (Some Scenario.party) (Some "ann"))
           EventDetails.initial _
           "Successfully registered for the event!").
  reflexivity.
Defined.

(** ** What the dialog counts *)

Lemma visitor_counts_own_rows_only_witness :
  EventDetails.registrationCount
    (EventDetails.useEffect (Some "bob") Scenario.after_ann
       (EventDetails.mkprops true (Some Scenario.party) (Some "bob"))
       EventDetails.initial)
  = Z.of_nat
      (List.length
         (filter (fun r => String.eqb (Registration.event_id r)
                                     (Event.id Scenario.party)
                           && String.eqb (Registration.user_id r) "bob"
                           && EventDetails.is_registered r)
                 (event_registrations Scenario.after_ann))).
Proof.
  apply (visitor_counts_own_rows_only Scenario.after_ann "bob"
           Scenario.party EventDetails.initial).
  - discriminate.
  - intros e [<-|[]] _. discriminate.
Defined.

(** X17.  For the creator of the event shown, the count read by
    [fetchRegistrationInfo] is the number of all registered rows of the
    event: the select policies show an event's creator every registration
    for it. *)
Theorem creator_counts_every_registration (d : db) (me : uuid)
    (ev stored : Event.t) (st : EventDetails.state) :
  me <> "" ->
  In stored (events d) ->
  Event.id stored = Event.id ev ->
  Event.created_by stored = Some me ->
  EventDetails.registrationCount
    (EventDetails.useEffect (Some me) d
       (EventDetails.mkprops true (Some ev) (Some me)) st)
  = Z.of_nat (List.length (registered_for (Event.id ev) d)).
Proof.
  intros Hme Hin Hid Hc.
  unfold EventDetails.useEffect, EventDetails.fetchRegistrationInfo. simpl.
  apply String.eqb_neq in Hme. rewrite Hme. simpl.
  unfold registered_for. do 2 f_equal.
  unfold select_event_registrations. apply filter_filter_implied.
  intros r Hr Hf. apply andb_true_iff in Hf. destruct Hf as [He _].
  apply String.eqb_eq in He.
  unfold event_registrations_select, permissive. simpl.
  apply orb_true_iff. right. rewrite orb_false_r.
  unfold Event_creators_can_view_all_registrations_for_their_events.
  apply existsb_exists. exists stored. split.
  - unfold select_events. apply filter_In. split; [assumption|].
    apply events_select_iff. right. eauto.
  - apply andb_true_iff. split; apply holds_eq_text.
    + exists (Event.id stored). split; [reflexivity|]. now rewrite Hid, He.
    + exists me. split; [assumption | reflexivity].
Qed.

Lemma creator_counts_every_registration_witness :
  EventDetails.registrationCount
    (EventDetails.useEffect (Some "carol") Scenario.after_bob
       (EventDetails.mkprops true (Some Scenario.party) (Some "carol"))
       EventDetails.initial)
  = Z.of_nat (List.length (registered_for "party" Scenario.after_bob)).
Proof.
  apply (creator_counts_every_registration Scenario.after_bob "carol"
           Scenario.party Scenario.party EventDetails.initial).
  - discriminate.
  - left. reflexivity.
  - reflexivity.
  - reflexivity.
Defined.

(** ** Deleting an event from the dialog *)

(** X18.  A user who is not the creator of the event shown gets the message
    "You can only delete events you created." and nothing is written.
    Whoever clicks, every event with another id, and every event that the
    session's user did not create, is still there afterwards.  When the
    creator clicks, no event with that id created by them is left, and no
    registration or notification of it. *)
Theorem delete_click_removes_only_the_creators_event :
  (forall uid d p st ev me,
      EventDetails.event p = Some ev ->
      EventDetails.currentUserId p = Some me -> me <> "" ->
      Event.created_by ev <> Some me ->
      EventDetails.handleDeleteEvent uid d p st
      = (d, st,
         Some (EventDetails.ErrorText
                 "You can only delete events you created.")))
  /\ (forall uid d p st e,
         In e (events d) ->
         (forall ev, EventDetails.event p = Some ev ->
                     Event.id e <> Event.id ev
                     \/ uid = None
                     \/ uid <> Event.created_by e) ->
         In e (events (fst (fst (EventDetails.handleDeleteEvent uid d p st)))))
  /\ (forall d p st ev me,
         EventDetails.event p = Some ev ->
         EventDetails.currentUserId p = Some me -> me <> "" ->
         Event.created_by ev = Some me ->
         let '(d', _, t) :=
           EventDetails.handleDeleteEvent (Some me) d p st in
         t = Some (EventDetails.Success "Event deleted successfully.")
         /\ (forall e, In e (events d') ->
               ~ (Event.id e = Event.id ev
                  /\ Event.created_by e = Some me))
         /\ ((exists e, In e (events d) /\ Event.id e = Event.id ev
                        /\ Event.created_by e = Some me) ->
             (forall r, In r (event_registrations d') ->
                        Registration.event_id r <> Event.id ev)
             /\ (forall n, In n (event_notifications d') ->
                           Notification.event_id n <> Event.id ev))).
Proof.
  split; [|split].
  - intros uid d p st ev me Hev Hme Hne Hc.
    unfold EventDetails.handleDeleteEvent. rewrite Hev, Hme. simpl.
    apply String.eqb_neq in Hne. rewrite Hne. simpl.
    destruct (Event.created_by ev) as [c|]; [|reflexivity].
    destruct (String.eqb me c) eqn:X; [|reflexivity].
    apply String.eqb_eq in X. subst. contradiction.
  - intros uid d p st e Hin Hother.
    unfold EventDetails.handleDeleteEvent.
    destruct (EventDetails.event p) as [ev|]; [|assumption].
    destruct (Js.truthy_string _); [|assumption].
    destruct (negb _); [assumption|].
    unfold delete_events. simpl. unfold delete_rows. apply filter_In.
    split; [assumption|]. apply negb_true_iff, andb_false_iff.
    destruct (Hother ev eq_refl) as [H|[H|H]].
    + left. now apply String.eqb_neq.
    + right. now subst.
    + right. unfold events_delete, permissive,
        Users_can_delete_their_own_events. simpl. rewrite orb_false_r.
      destruct (Sql.holds _) eqn:X; [|reflexivity].
      apply holds_eq_text in X. destruct X as [u [Hu Hc]]. congruence.
  - intros d p st ev me Hev Hme Hne Hc.
    unfold EventDetails.handleDeleteEvent. rewrite Hev, Hme. simpl.
    apply String.eqb_neq in Hne. rewrite Hne. simpl.
    rewrite Hc. simpl. rewrite String.eqb_refl. simpl.
    split; [reflexivity|].
    assert (Hdel : forall e, Event.id e = Event.id ev ->
                     Event.created_by e = Some me ->
                     String.eqb (Event.id e) (Event.id ev)
                     && events_delete (Some me) d e = true).
    { intros e Hid Hce. apply andb_true_iff. split.
      - now apply String.eqb_eq.
      - unfold events_delete, permissive,
          Users_can_delete_their_own_events. simpl.
        rewrite Hce. simpl. now rewrite String.eqb_refl. }
    split.
    + intros e Hin [Hid Hce]. unfold delete_rows in Hin.
      apply filter_In in Hin. destruct Hin as [_ Hin].
      rewrite (Hdel e Hid Hce) in Hin. discriminate.
    + intros [e [Hin [Hid Hce]]]. split.
      * intros r Hr Heq. apply filter_In in Hr. destruct Hr as [_ Hr].
        apply negb_true_iff, mem_false in Hr. apply Hr. apply gone_ids.
        exists e. split; [assumption|]. split; [now apply Hdel|].
        now rewrite Hid, Heq.
      * intros n Hn Heq. apply filter_In in Hn. destruct Hn as [_ Hn].
        apply negb_true_iff, mem_false in Hn. apply Hn. apply gone_ids.
        exists e. split; [assumption|]. split; [now apply Hdel|].
        now rewrite Hid, Heq.
Qed.

Lemma delete_click_removes_only_the_creators_event_witness :
  EventDetails.handleDeleteEvent (Some "bob") Scenario.opened
    (EventDetails.mkprops true (Some Scenario.party) (Some "bob"))
    EventDetails.initial
  = (Scenario.opened, EventDetails.initial,
     Some (EventDetails.ErrorText
             "You can only delete events you created.")).
Proof.
  apply (proj1 delete_click_removes_only_the_creators_event (Some "bob")
           Scenario.opened
           (EventDetails.mkprops true (Some Scenario.party) (Some "bob"))
           EventDetails.initial Scenario.party "bob");
    try reflexivity; discriminate.
Defined.

(** * Further properties of the calendar *)

Lemma StronglySorted_filter {A : Type} (R : A -> A -> Prop)
    (keep : A -> bool) (l : list A) :
  StronglySorted R l -> StronglySorted R (filter keep l).
Proof.
  induction 1 as [|a l Hs IH Hall]; simpl; [constructor|].
  destruct (keep a); [|assumption].
  constructor; [assumption|]. now apply Forall_filter.
Qed.

(** X19.  After a fetch the events listed for the selected date are in ascending
    order of [start_time], each of them starts on the selected day, and
    they are all the fetched events that do; without a selected date the
    list is empty. *)
Theorem events_of_the_day_are_listed_in_order (zone : timestamptz -> Z)
    (uid : option uuid) (now : timestamptz) (d : db) (st : Calendar.state) :
  let st' := Calendar.fetchEvents uid now d st in
  StronglySorted
    (fun a b => Event.start_time (Calendar.row a)
                <= Event.start_time (Calendar.row b))
    (Calendar.eventsForSelectedDate zone st')
  /\ (forall x day,
         Calendar.selectedDate st = Some day ->
         (In x (Calendar.eventsForSelectedDate zone st') <->
          In x (Calendar.events st')
          /\ (Event.start_time (Calendar.row x)
              + zone (Event.start_time (Calendar.row x))) / 86400000000
             = (day + zone day) / 86400000000))
  /\ (Calendar.selectedDate st = None ->
      Calendar.eventsForSelectedDate zone st' = []).
Proof.
  intros st'. unfold Calendar.eventsForSelectedDate. subst st'. simpl.
  split; [|split].
  - destruct (Calendar.selectedDate st); [|constructor].
    apply StronglySorted_filter, processedEvents_sorted, order_sorted.
  - intros x day ->. rewrite filter_In. unfold Calendar.isSameDay.
    now rewrite Z.eqb_eq.
  - now intros ->.
Qed.

(** * Properties of the notification settings *)

Lemma includes_iff (l : list NotificationSettings.number)
    (t : NotificationSettings.number) :
  NotificationSettings.includes l t = true <->
  exists x, In x l /\ QArith_base.Qeq t x.
Proof.
  unfold NotificationSettings.includes. rewrite existsb_exists.
  split; intros [x [Hin Hx]]; exists x; split; try assumption;
    now apply QArith_base.Qeq_bool_iff.
Qed.

Lemma reminder_place_In (x y : NotificationSettings.number)
    (l : list NotificationSettings.number) :
  In y (NotificationSettings.place x l) <-> y = x \/ In y l.
Proof.
  induction l as [|z l IH]; simpl.
  - intuition.
  - destruct (QArith_base.Qle_bool z x); simpl; [intuition|].
    rewrite IH. intuition.
Qed.

Lemma reminder_sort_In (y : NotificationSettings.number)
    (l : list NotificationSettings.number) :
  In y (NotificationSettings.sort l) <-> In y l.
Proof.
  induction l as [|x l IH]; simpl; [reflexivity|].
  rewrite reminder_place_In, IH. intuition.
Qed.

Lemma reminder_place_sorted (x : NotificationSettings.number)
    (l : list NotificationSettings.number) :
  StronglySorted descending l ->
  StronglySorted descending (NotificationSettings.place x l).
Proof.
  induction l as [|y l IH]; simpl; intros Hs.
  - repeat constructor.
  - inversion Hs as [|? ? Hrest Hall]; subst.
    destruct (QArith_base.Qle_bool y x) eqn:C.
    + apply QArith_base.Qle_bool_iff in C. constructor; [assumption|].
      constructor; [exact C|].
      eapply Forall_impl; [|exact Hall].
      unfold descending. intros z Hz.
      eapply QArith_base.Qle_trans; eauto.
    + assert (Hlt : QArith_base.Qlt x y).
      { apply QArith_base.Qnot_le_lt. intros Hle.
        apply QArith_base.Qle_bool_iff in Hle. congruence. }
      constructor; [auto|].
      apply Forall_forall. intros z Hz. apply reminder_place_In in Hz.
      destruct Hz as [->|Hz].
      * unfold descending. now apply QArith_base.Qlt_le_weak.
      * rewrite Forall_forall in Hall. auto.
Qed.

Lemma reminder_sort_sorted (l : list NotificationSettings.number) :
  StronglySorted descending (NotificationSettings.sort l).
Proof.
  induction l as [|x l IH]; simpl;
    [constructor | now apply reminder_place_sorted].
Qed.

(** X21.  Ticking a reminder time flips it and nothing else: afterwards the time
    is included exactly when it was not before, every other time is
    included exactly when it was, and the e-mail and push switches are
    as they were.  A list in descending order stays in descending order,
    and adding a time leaves the list in descending order whatever it was
    before. *)
Theorem toggle_flips_one_reminder_time (time : NotificationSettings.number)
    (prev : NotificationSettings.NotificationPreferences) :
  let next := NotificationSettings.toggleReminderTime time prev in
  NotificationSettings.checked next time
  = negb (NotificationSettings.checked prev time)
  /\ (forall other,
         ~ QArith_base.Qeq other time ->
         NotificationSettings.checked next other
         = NotificationSettings.checked prev other)
  /\ NotificationSettings.email next = NotificationSettings.email prev
  /\ NotificationSettings.push next = NotificationSettings.push prev
  /\ (StronglySorted descending (NotificationSettings.reminder_times prev) ->
      StronglySorted descending (NotificationSettings.reminder_times next))
  /\ (NotificationSettings.checked prev time = false ->
      StronglySorted descending (NotificationSettings.reminder_times next)).
Proof.
  intros next. subst next.
  unfold NotificationSettings.checked, NotificationSettings.toggleReminderTime.
  simpl.
  destruct (NotificationSettings.includes
              (NotificationSettings.reminder_times prev) time) eqn:Inc;
    cbv beta iota.
  - split; [|split; [|repeat split]].
    + match goal with
      | |- ?b = negb true => destruct b eqn:X; [|reflexivity]
      end.
      apply includes_iff in X. destruct X as [x [Hin Hx]].
      apply filter_In in Hin. destruct Hin as [_ Hne].
      apply negb_true_iff in Hne.
      assert (QArith_base.Qeq_bool x time = true); [|congruence].
      apply QArith_base.Qeq_bool_iff. now apply QArith_base.Qeq_sym.
    + intros other Hother. apply Bool.eq_iff_eq_true.
      rewrite !includes_iff. split; intros [x [Hin Hx]]; exists x.
      * apply filter_In in Hin. tauto.
      * split; [|assumption]. apply filter_In. split; [assumption|].
        apply negb_true_iff.
        destruct (QArith_base.Qeq_bool x time) eqn:E; [|reflexivity].
        apply QArith_base.Qeq_bool_iff in E. exfalso. apply Hother.
        eapply QArith_base.Qeq_trans; eauto.
    + intros Hs. now apply StronglySorted_filter.
    + discriminate.
  - split; [|split; [|repeat split]].
    + change (negb false) with true.
      apply includes_iff. exists time. split.
      * apply reminder_sort_In. apply in_or_app. right. now left.
      * apply QArith_base.Qeq_refl.
    + intros other Hother. apply Bool.eq_iff_eq_true.
      rewrite !includes_iff. split; intros [x [Hin Hx]]; exists x.
      * apply (proj1 (reminder_sort_In _ _)) in Hin. apply in_app_or in Hin.
        destruct Hin as [Hin|[<-|[]]]; [tauto | contradiction].
      * split; [|assumption]. apply reminder_sort_In.
        apply in_or_app. now left.
    + intros _. apply reminder_sort_sorted.
    + intros _. apply reminder_sort_sorted.
Qed.

Lemma toggle_flips_one_reminder_time_witness :
  NotificationSettings.checked
    (NotificationSettings.toggleReminderTime (QArith_base.Qmake 1 2)
       NotificationSettings.initial)
    (QArith_base.inject_Z 24)
  = NotificationSettings.checked NotificationSettings.initial
      (QArith_base.inject_Z 24).
Proof.
  apply (proj1 (proj2 (toggle_flips_one_reminder_time
                         (QArith_base.Qmake 1 2)
                         NotificationSettings.initial))).
  discriminate.
Defined.

(** * Ownership of events *)

Lemma events_own_policy (uid : option uuid) (e : Event.t) :
  Sql.holds (Sql.eq_text uid (Event.created_by e)) = true ->
  uid = Event.created_by e /\ uid <> None.
Proof.
  intros H. apply holds_eq_text in H. destruct H as [u [-> Hc]].
  split; [now rewrite Hc | discriminate].
Qed.

(** X3.  Whatever statement a caller issues, every event that is in the table
    afterwards without having been there before (a new event, or the new
    version of an updated one) has the caller as its [created_by]: nobody
    creates an event for somebody else or hands an event over. *)
Theorem new_and_changed_events_belong_to_the_caller (s : statement)
    (uid : option uuid) (d : db) (e : Event.t) :
  issued_by s = Some uid ->
  In e (events (state_after d (execute s d))) ->
  In e (events d) \/ (uid = Event.created_by e /\ uid <> None).
Proof.
  intros Hby Hin.
  destruct (execute s d) as [d'|] eqn:H; simpl in Hin; [|now left].
  pose proof (execute_frame s d d' H) as F.
  destruct s; simpl in Hby; inversion Hby; subst; simpl in H;
    try (assert (Fe : events d' = events d) by tauto;
         rewrite Fe in Hin; now left).
  - unfold insert_events in H. run_ok H.
    apply insert_rows_ok in E. destruct E as [-> Hp]. simpl in Hin.
    apply in_app_or in Hin. destruct Hin as [Hin|Hin]; [now left|right].
    pose proof (forallb_In _ _ _ Hp Hin) as Hr.
    unfold events_insert, permissive,
      Authenticated_users_can_create_events in Hr. simpl in Hr.
    rewrite orb_false_r in Hr. now apply events_own_policy.
  - unfold update_events in H. run_ok H.
    pose proof (update_rows_checked _ _ _ _ _ _ _ E) as Hc.
    apply update_rows_ok in E. simpl in E. subst. simpl in Hin.
    apply in_map_iff in Hin. destruct Hin as [q [Hq Hin]].
    unfold updated in Hq.
    destruct (where_ q && events_update uid d q) eqn:T.
    + right. specialize (Hc q Hin T). subst e.
      unfold events_update, permissive,
        Users_can_update_their_own_events in Hc. simpl in Hc.
      rewrite orb_false_r in Hc. now apply events_own_policy.
    + left. now subst.
  - unfold delete_events in H. inversion H; subst; clear H. simpl in Hin.
    unfold delete_rows in Hin. apply filter_In in Hin. tauto.
Qed.

Lemma new_and_changed_events_belong_to_the_caller_witness :
  In Scenario.party (events (run Scenario.signups empty_db))
  \/ (Some "carol" = Event.created_by Scenario.party
      /\ Some "carol" <> None).
Proof.
  apply (new_and_changed_events_belong_to_the_caller
           (InsertEvents (Some "carol") [Scenario.party])
           (Some "carol") (run Scenario.signups empty_db) Scenario.party
           eq_refl).
  left. reflexivity.
Defined.
